(** * A model of the task-manager client

    The development follows the three source files of the client:
    - [services/api.js]: the axios instance and its request interceptor;
    - [services/authService.js]: the two authentication calls;
    - [App.js]: the [AuthForm] component and the [App] component.

    JavaScript strings are Rocq strings; a character stands for one code unit
    below 256, so [String.length] is the [length] property.  React state is a
    record per component, [localStorage] a finite map, and every [async]
    handler is split at its [await]: the part before it runs when the user
    acts, the part after it is a continuation kept with the request in flight
    and run when the network settles that request. *)

From stdpp Require Import base strings list gmap.
From Stdlib Require Import Ascii String.

Local Open Scope string_scope.
Local Open Scope list_scope.

(** ** JavaScript values the code relies on *)

Module JS.

(** [if (s)] and [!s] on a string: only the empty string is falsy. *)
Definition truthy (s : string) : bool :=
  match s with
  | EmptyString => false
  | String _ _ => true
  end.

(** [a || b] where [a] may be [undefined] and [b] is evaluated lazily. *)
Definition or_else (a : option string) (b : option string) : option string :=
  match a with
  | Some s => if truthy s then Some s else b
  | None => b
  end.

(** A value stored under a key of a plain object: a string or [null]. *)
Inductive value :=
| Null
| Str (s : string).

(** [String(x)] for a property that is a string or absent: reading an
    absent property gives [undefined].  [localStorage.setItem] converts the
    value it is given this way. *)
Definition string_of (x : option string) : string :=
  match x with
  | Some s => s
  | None => "undefined"
  end.

(** [`${x}`] for a state variable that is a string or [null]. *)
Definition template (x : option string) : string :=
  match x with
  | Some s => s
  | None => "null"
  end.

(** [if (o.k)] on such an object: absent, [null] and [''] are falsy. *)
Definition truthy_at (o : gmap string value) (k : string) : bool :=
  match o !! k with
  | Some (Str s) => truthy s
  | Some Null => false
  | None => false
  end.

(** [o[k] = v] on a plain object.  The key [__proto__] is the accessor
    inherited from [Object.prototype], whose setter ignores a string and
    creates no property. *)
Definition assign {V : Type} (o : gmap string V) (k : string) (v : V)
  : gmap string V :=
  if decide (k = "__proto__") then o else <[k := v]> o.

End JS.

(** ** Regular expressions, as far as the literals of [App.js] need them *)

Module Regex.

Inductive regex :=
| Void
| Eps
| Class (p : ascii -> bool)
| Cat (r1 r2 : regex)
| Alt (r1 r2 : regex)
| Star (r : regex).

(** [r+] *)
Definition Plus (r : regex) : regex := Cat r (Star r).

Fixpoint nullable (r : regex) : bool :=
  match r with
  | Void => false
  | Eps => true
  | Class _ => false
  | Cat r1 r2 => nullable r1 && nullable r2
  | Alt r1 r2 => nullable r1 || nullable r2
  | Star _ => true
  end.

(** The residual of [r] after reading the code unit [c]. *)
Fixpoint deriv (c : ascii) (r : regex) : regex :=
  match r with
  | Void => Void
  | Eps => Void
  | Class p => if p c then Eps else Void
  | Cat r1 r2 =>
      if nullable r1
      then Alt (Cat (deriv c r1) r2) (deriv c r2)
      else Cat (deriv c r1) r2
  | Alt r1 r2 => Alt (deriv c r1) (deriv c r2)
  | Star r1 => Cat (deriv c r1) (Star r1)
  end.

(** Does [r] match the whole of [s]? *)
Fixpoint accepts (r : regex) (s : list ascii) : bool :=
  match s with
  | [] => nullable r
  | c :: s' => accepts (deriv c r) s'
  end.

(** What [accepts] decides: the strings a regular expression denotes. *)
Inductive matches : regex -> list ascii -> Prop :=
| matches_eps : matches Eps []
| matches_class p c : p c = true -> matches (Class p) [c]
| matches_cat r1 r2 s1 s2 :
    matches r1 s1 -> matches r2 s2 -> matches (Cat r1 r2) (s1 ++ s2)
| matches_alt_l r1 r2 s : matches r1 s -> matches (Alt r1 r2) s
| matches_alt_r r1 r2 s : matches r2 s -> matches (Alt r1 r2) s
| matches_star_nil r : matches (Star r) []
| matches_star_app r s1 s2 :
    matches r s1 -> matches (Star r) s2 -> matches (Star r) (s1 ++ s2).

(** A literal [/^body$/], [/body/], ...: the two anchors are flags. *)
Record pattern := {
  from_start : bool;
  body : regex;
  to_end : bool
}.

Definition any : regex := Class (fun _ => true).

(** [pattern.test(s)]: some substring matches, the anchors pinning its ends. *)
Definition test (p : pattern) (s : string) : bool :=
  accepts
    (Cat (if from_start p then Eps else Star any)
         (Cat (body p) (if to_end p then Eps else Star any)))
    (list_ascii_of_string s).

(** Character classes. *)
Definition code (c : ascii) : nat := nat_of_ascii c.

Definition between (lo hi : ascii) (c : ascii) : bool :=
  (code lo <=? code c)%nat && (code c <=? code hi)%nat.

Definition chr (x : ascii) (c : ascii) : bool := Ascii.eqb c x.

Definition one_of (l : list ascii) (c : ascii) : bool :=
  existsb (Ascii.eqb c) l.

(** [\s] on code units below 256: TAB, LF, VT, FF, CR, space and the
    no-break space U+00A0. *)
Definition space (c : ascii) : bool :=
  between "009" "013" c || chr " " c || chr "160" c.

(** [\d] *)
Definition digit : ascii -> bool := between "0" "9".

(** [[^\s@]] *)
Definition not_space_at (c : ascii) : bool :=
  negb (space c || chr "@" c).

End Regex.

(** ** Data exchanged with the server *)

Module Task.
(** A task as the server returns it.  [rest] holds the properties the
    client never reads but copies with [{...task}]. *)
Record t := {
  _id : string;
  title : string;
  description : string;
  status : string;
  rest : list (string * string)
}.
End Task.

Module FieldError.
(** One element of the [errors] array of a validation failure. *)
Record t := { path : string; msg : string }.
End FieldError.

Module Response.
(** The body of a failed response, read as [data.errors] and
    [data.message]; an absent property is [None]. *)
Record body := {
  errors : option (list FieldError.t);
  message : option string
}.
(** [err.response] *)
Record t := { status : nat; data : body }.
End Response.

(** The rejection value of a request: [err.response] is [undefined] when the
  server was never reached. *)
Record error := { response : option Response.t }.

(** [err.response?.status === n] *)
Definition status_is (err : error) (n : nat) : bool :=
match response err with
| Some r => (Response.status r =? n)%nat
| None => false
end.

(** [res.data] of a fulfilled request: the array of tasks, an object with
    a [token], or any other body (an object without [token], or the empty
    string axios gives for an empty body). *)
Inductive payload :=
| TaskList (l : list Task.t)
| AuthData (token : string)
| Other.

(** [res.data.token]: only an auth body has the property. *)
Definition data_token (d : payload) : option string :=
  match d with
  | AuthData token => Some token
  | TaskList _ => None
  | Other => None
  end.

(** How the network settles a request. *)
Inductive reply :=
| Fulfilled (d : payload)
| Rejected (err : error).

(** ** [services/api.js] *)

Module Api.

Inductive verb := GET | POST | PUT | DELETE.

(** The object passed as request body; [get] and [delete] pass none. *)
Inductive body :=
| NoBody
| Credentials (email password : string)
| TaskFields (title description status : string)
| TaskObject (t : Task.t).

(** The request configuration that axios hands to the interceptors. *)
Record config := {
  baseURL : string;
  method : verb;
  url : string;
  params : gmap string string;
  headers : gmap string string;
  data : body
}.

Definition API_BASE : string :=
  "https://assignment-backend-8jz8.onrender.com/api".

(** [api.get(url, { params })], [api.post(url, data)], [api.put(url, data)]
    and [api.delete(url)] on the instance created with [baseURL: API_BASE].
    No call site passes headers of its own. *)
Definition get (url : string) (params : gmap string string) : config :=
  {| baseURL := API_BASE; method := GET; url := url; params := params;
     headers := ∅; data := NoBody |}.

Definition post (url : string) (data : body) : config :=
  {| baseURL := API_BASE; method := POST; url := url; params := ∅;
     headers := ∅; data := data |}.

Definition put (url : string) (data : body) : config :=
  {| baseURL := API_BASE; method := PUT; url := url; params := ∅;
     headers := ∅; data := data |}.

Definition delete (url : string) : config :=
  {| baseURL := API_BASE; method := DELETE; url := url; params := ∅;
     headers := ∅; data := NoBody |}.

Definition set_header (name value : string) (cfg : config) : config :=
  {| baseURL := baseURL cfg; method := method cfg; url := url cfg;
     params := params cfg;
     headers := <[name := value]> (headers cfg);
     data := data cfg |}.

(** [api.interceptors.request.use(config => ...)]: [getItem] gives [null]
    for an absent key, and [if (token)] also rejects the empty string. *)
Definition interceptor (localStorage : gmap string string) (cfg : config)
  : config :=
  match localStorage !! "token" with
  | Some token =>
      if JS.truthy token
      then set_header "Authorization" ("Bearer " +:+ token) cfg
      else cfg
  | None => cfg
  end.

End Api.

(** ** [services/authService.js] *)

Module AuthService.

Definition signup (email password : string) : Api.config :=
  Api.post "/auth/signup" (Api.Credentials email password).

Definition login (email password : string) : Api.config :=
  Api.post "/auth/login" (Api.Credentials email password).

End AuthService.

(** ** Component state *)

Module Toast.
(** The [toast] state of [App]. *)
Record t := { show : bool; msg : string; variant : string }.
End Toast.

Module AuthFormState.

(** The five [useState] cells of [AuthForm].  [fieldErrors] is a plain
    object with the keys [email], [password] and [form]. *)
Record t := {
  isLogin : bool;
  email : string;
  password : string;
  fieldErrors : gmap string string;
  loading : bool
}.

Definition initial : t :=
  {| isLogin := true; email := ""; password := ""; fieldErrors := ∅;
     loading := false |}.

Definition setIsLogin (v : bool) (s : t) : t :=
  {| isLogin := v; email := email s; password := password s;
     fieldErrors := fieldErrors s; loading := loading s |}.

Definition setEmail (v : string) (s : t) : t :=
  {| isLogin := isLogin s; email := v; password := password s;
     fieldErrors := fieldErrors s; loading := loading s |}.

Definition setPassword (v : string) (s : t) : t :=
  {| isLogin := isLogin s; email := email s; password := v;
     fieldErrors := fieldErrors s; loading := loading s |}.

(** [setFieldErrors(prev => f(prev))]; [setFieldErrors(o)] is the constant
    function. *)
Definition setFieldErrors (f : gmap string string -> gmap string string)
  (s : t) : t :=
  {| isLogin := isLogin s; email := email s; password := password s;
     fieldErrors := f (fieldErrors s); loading := loading s |}.

Definition setLoading (v : bool) (s : t) : t :=
  {| isLogin := isLogin s; email := email s; password := password s;
     fieldErrors := fieldErrors s; loading := v |}.

End AuthFormState.

Module AppState.

(** The [useState] cells of [App]. *)
Record t := {
  userLoaded : bool;
  tasks : list Task.t;
  filterQ : string;
  filterStatus : string;
  title : string;
  description : string;
  editingTask : option Task.t;
  fieldErrors : gmap string JS.value;
  toast : Toast.t;
  showDeleteModal : bool;
  deleteTaskId : option string
}.

Definition initial : t :=
  {| userLoaded := false; tasks := []; filterQ := ""; filterStatus := "";
     title := ""; description := ""; editingTask := None; fieldErrors := ∅;
     toast := {| Toast.show := false; Toast.msg := "";
                 Toast.variant := "success" |};
     showDeleteModal := false; deleteTaskId := None |}.

Definition setUserLoaded (v : bool) (s : t) : t :=
  {| userLoaded := v; tasks := tasks s; filterQ := filterQ s;
     filterStatus := filterStatus s; title := title s;
     description := description s; editingTask := editingTask s;
     fieldErrors := fieldErrors s; toast := toast s;
     showDeleteModal := showDeleteModal s; deleteTaskId := deleteTaskId s |}.

Definition setTasks (v : list Task.t) (s : t) : t :=
  {| userLoaded := userLoaded s; tasks := v; filterQ := filterQ s;
     filterStatus := filterStatus s; title := title s;
     description := description s; editingTask := editingTask s;
     fieldErrors := fieldErrors s; toast := toast s;
     showDeleteModal := showDeleteModal s; deleteTaskId := deleteTaskId s |}.

Definition setFilterQ (v : string) (s : t) : t :=
  {| userLoaded := userLoaded s; tasks := tasks s; filterQ := v;
     filterStatus := filterStatus s; title := title s;
     description := description s; editingTask := editingTask s;
     fieldErrors := fieldErrors s; toast := toast s;
     showDeleteModal := showDeleteModal s; deleteTaskId := deleteTaskId s |}.

Definition setFilterStatus (v : string) (s : t) : t :=
  {| userLoaded := userLoaded s; tasks := tasks s; filterQ := filterQ s;
     filterStatus := v; title := title s;
     description := description s; editingTask := editingTask s;
     fieldErrors := fieldErrors s; toast := toast s;
     showDeleteModal := showDeleteModal s; deleteTaskId := deleteTaskId s |}.

Definition setTitle (v : string) (s : t) : t :=
  {| userLoaded := userLoaded s; tasks := tasks s; filterQ := filterQ s;
     filterStatus := filterStatus s; title := v;
     description := description s; editingTask := editingTask s;
     fieldErrors := fieldErrors s; toast := toast s;
     showDeleteModal := showDeleteModal s; deleteTaskId := deleteTaskId s |}.

Definition setDescription (v : string) (s : t) : t :=
  {| userLoaded := userLoaded s; tasks := tasks s; filterQ := filterQ s;
     filterStatus := filterStatus s; title := title s;
     description := v; editingTask := editingTask s;
     fieldErrors := fieldErrors s; toast := toast s;
     showDeleteModal := showDeleteModal s; deleteTaskId := deleteTaskId s |}.

Definition setEditingTask (v : option Task.t) (s : t) : t :=
  {| userLoaded := userLoaded s; tasks := tasks s; filterQ := filterQ s;
     filterStatus := filterStatus s; title := title s;
     description := description s; editingTask := v;
     fieldErrors := fieldErrors s; toast := toast s;
     showDeleteModal := showDeleteModal s; deleteTaskId := deleteTaskId s |}.

(** [setFieldErrors(prev => f(prev))]; [setFieldErrors(o)] is the constant
    function. *)
Definition setFieldErrors (f : gmap string JS.value -> gmap string JS.value)
  (s : t) : t :=
  {| userLoaded := userLoaded s; tasks := tasks s; filterQ := filterQ s;
     filterStatus := filterStatus s; title := title s;
     description := description s; editingTask := editingTask s;
     fieldErrors := f (fieldErrors s); toast := toast s;
     showDeleteModal := showDeleteModal s; deleteTaskId := deleteTaskId s |}.

Definition setToast (v : Toast.t) (s : t) : t :=
  {| userLoaded := userLoaded s; tasks := tasks s; filterQ := filterQ s;
     filterStatus := filterStatus s; title := title s;
     description := description s; editingTask := editingTask s;
     fieldErrors := fieldErrors s; toast := v;
     showDeleteModal := showDeleteModal s; deleteTaskId := deleteTaskId s |}.

Definition setShowDeleteModal (v : bool) (s : t) : t :=
  {| userLoaded := userLoaded s; tasks := tasks s; filterQ := filterQ s;
     filterStatus := filterStatus s; title := title s;
     description := description s; editingTask := editingTask s;
     fieldErrors := fieldErrors s; toast := toast s;
     showDeleteModal := v; deleteTaskId := deleteTaskId s |}.

Definition setDeleteTaskId (v : option string) (s : t) : t :=
  {| userLoaded := userLoaded s; tasks := tasks s; filterQ := filterQ s;
     filterStatus := filterStatus s; title := title s;
     description := description s; editingTask := editingTask s;
     fieldErrors := fieldErrors s; toast := toast s;
     showDeleteModal := showDeleteModal s; deleteTaskId := v |}.

End AppState.

(** ** The world the handlers run in *)

(** A request in flight remembers the [async] function suspended on it,
    together with the render [c] of [App] whose closures that function
    holds. *)
Inductive cont :=
| LoadTasksK
| AuthSubmitK (c : AppState.t)
| HandleSubmitK (c : AppState.t)
| ToggleStatusK (c : AppState.t)
| HandleDeleteConfirmK (c : AppState.t).

Record World := {
  localStorage : gmap string string;
  authForm : AuthFormState.t;
  app : AppState.t;
  console : list error;
  sent : list Api.config;
  pending : list cont
}.

Definition with_localStorage
  (f : gmap string string -> gmap string string) (w : World) : World :=
  {| localStorage := f (localStorage w); authForm := authForm w;
     app := app w; console := console w; sent := sent w;
     pending := pending w |}.

Definition with_authForm (f : AuthFormState.t -> AuthFormState.t)
  (w : World) : World :=
  {| localStorage := localStorage w; authForm := f (authForm w);
     app := app w; console := console w; sent := sent w;
     pending := pending w |}.

Definition with_app (f : AppState.t -> AppState.t) (w : World) : World :=
  {| localStorage := localStorage w; authForm := authForm w;
     app := f (app w); console := console w; sent := sent w;
     pending := pending w |}.

Definition with_pending (f : list cont -> list cont) (w : World) : World :=
  {| localStorage := localStorage w; authForm := authForm w;
     app := app w; console := console w; sent := sent w;
     pending := f (pending w) |}.

(** [localStorage.setItem(k, v)] and [localStorage.removeItem(k)]. *)
Definition setItem (k v : string) : World -> World :=
  with_localStorage (insert k v).

Definition removeItem (k : string) : World -> World :=
  with_localStorage (base.delete k).

(** [console.error(err)] *)
Definition console_error (err : error) (w : World) : World :=
  {| localStorage := localStorage w; authForm := authForm w;
     app := app w; console := console w ++ [err]; sent := sent w;
     pending := pending w |}.

(** A call [await api.verb(...)]: the interceptor reads the storage of the
    moment, the request leaves, and the caller [k] stays suspended on it. *)
Definition request (cfg : Api.config) (k : cont) (w : World) : World :=
  {| localStorage := localStorage w; authForm := authForm w;
     app := app w; console := console w;
     sent := sent w ++ [Api.interceptor (localStorage w) cfg];
     pending := pending w ++ [k] |}.

(** ** [App.js]: the [App] component *)

Module App.

Import AppState.

(** [showToast(msg, variant)] *)
Definition showToast (msg variant : string) : World -> World :=
  with_app (setToast {| Toast.show := true; Toast.msg := msg;
                        Toast.variant := variant |}).

(** The [params] object of [loadTasks]: a filter is sent when it is not
    the empty string.  The filters are those of the render [c] the closure
    belongs to. *)
Definition params (c : AppState.t) : gmap string string :=
  let params : gmap string string := ∅ in
  let params :=
    if JS.truthy (filterStatus c)
    then <["status" := filterStatus c]> params else params in
  let params :=
    if JS.truthy (filterQ c) then <["q" := filterQ c]> params else params in
  params.

(** [loadTasks], up to its [await]. *)
Definition loadTasks (c : AppState.t) (w : World) : World :=
  request (Api.get "/tasks" (params c)) LoadTasksK w.

(** [loadTasks], from its [await] on.  A fulfilled list request carries the
    array of tasks.  With any other body [tasks.map] throws in the next
    render and the page is gone: there is no next world. *)
Definition loadTasks_settled (r : reply) (w : World) : option World :=
  match r with
  | Fulfilled (TaskList l) => Some (with_app (setTasks l) w)
  | Fulfilled _ => None
  | Rejected err =>
      let w := console_error err w in
      Some (if status_is err 401
            then
              let w := removeItem "token" w in
              let w := with_app (setUserLoaded false) w in
              showToast "Session expired, please login" "danger" w
            else w)
  end.

(** [handleAuthSuccess] *)
Definition handleAuthSuccess (c : AppState.t) (w : World) : World :=
  let w := with_app (setUserLoaded true) w in
  loadTasks c w.

(** [handleSubmit], up to its [await]. *)
Definition handleSubmit (c : AppState.t) (w : World) : World :=
  let w := with_app (setFieldErrors (fun _ => ∅)) w in
  match editingTask c with
  | Some t =>
      request
        (Api.put ("/tasks/" +:+ Task._id t)
           (Api.TaskFields (title c) (description c) (Task.status t)))
        (HandleSubmitK c) w
  | None =>
      request
        (Api.post "/tasks"
           (Api.TaskFields (title c) (description c) "pending"))
        (HandleSubmitK c) w
  end.

(** [errors.forEach(x => newField[x.path] = x.msg)] on [newField = {}]. *)
Definition newField (errors : list FieldError.t) : gmap string JS.value :=
  foldl (fun o x => JS.assign o (FieldError.path x)
                      (JS.Str (FieldError.msg x)))
        ∅ errors.

(** [handleSubmit], from its [await] on. *)
Definition handleSubmit_settled (c : AppState.t) (r : reply) (w : World)
  : World :=
  match r with
  | Fulfilled _ =>
      let w := with_app (setTitle "") w in
      let w := with_app (setDescription "") w in
      let w := with_app (setEditingTask None) w in
      let w :=
        showToast
          (match editingTask c with
           | Some _ => "Task updated"
           | None => "Task added"
           end) "success" w in
      loadTasks c w
  | Rejected err =>
      match response err with
      | Some res =>
          if (Response.status res =? 400)%nat then
            let errors :=
              match Response.errors (Response.data res) with
              | Some l => l
              | None => []
              end in
            let w := with_app (setFieldErrors (fun _ => newField errors)) w in
            showToast "Fix the form errors" "danger" w
          else if (Response.status res =? 401)%nat then
            let w := removeItem "token" w in
            let w := with_app (setUserLoaded false) w in
            showToast "Session expired" "danger" w
          else showToast "Request failed" "danger" w
      | None => showToast "Request failed" "danger" w
      end
  end.

(** [handleEdit] *)
Definition handleEdit (task : Task.t) (w : World) : World :=
  let w := with_app (setEditingTask (Some task)) w in
  let w := with_app (setTitle (Task.title task)) w in
  let w := with_app (setDescription (Task.description task)) w in
  with_app (setFieldErrors (fun _ => ∅)) w.

(** [{ ...task, status: task.status==='pending'?'done':'pending' }] *)
Definition toggled (task : Task.t) : Task.t :=
  {| Task._id := Task._id task;
     Task.title := Task.title task;
     Task.description := Task.description task;
     Task.status :=
       if String.eqb (Task.status task) "pending" then "done" else "pending";
     Task.rest := Task.rest task |}.

(** [toggleStatus], up to its [await]. *)
Definition toggleStatus (c : AppState.t) (task : Task.t) (w : World)
  : World :=
  request
    (Api.put ("/tasks/" +:+ Task._id task) (Api.TaskObject (toggled task)))
    (ToggleStatusK c) w.

(** [toggleStatus], from its [await] on; the [catch] binds no error. *)
Definition toggleStatus_settled (c : AppState.t) (r : reply) (w : World)
  : World :=
  match r with
  | Fulfilled _ => loadTasks c w
  | Rejected _ => showToast "Update failed" "danger" w
  end.

(** [confirmDelete] *)
Definition confirmDelete (id : string) (w : World) : World :=
  let w := with_app (setDeleteTaskId (Some id)) w in
  with_app (setShowDeleteModal true) w.

(** [handleDeleteConfirm], up to its [await]. *)
Definition handleDeleteConfirm (c : AppState.t) (w : World) : World :=
  request (Api.delete ("/tasks/" +:+ JS.template (deleteTaskId c)))
    (HandleDeleteConfirmK c) w.

(** [handleDeleteConfirm], from its [await] on; the [finally] block closes
    both branches. *)
Definition handleDeleteConfirm_settled (c : AppState.t) (r : reply)
  (w : World) : World :=
  let w :=
    match r with
    | Fulfilled _ =>
        let w := loadTasks c w in
        showToast "Task deleted" "success" w
    | Rejected _ => showToast "Delete failed" "danger" w
    end in
  let w := with_app (setShowDeleteModal false) w in
  with_app (setDeleteTaskId None) w.

(** [logout] *)
Definition logout (w : World) : World :=
  let w := removeItem "token" w in
  let w := with_app (setUserLoaded false) w in
  let w := with_app (setTasks []) w in
  showToast "Logged out" "success" w.

(** The [onChange] of the title and of the description input. *)
Definition titleChange (c : AppState.t) (value : string) (w : World)
  : World :=
  let w := with_app (setTitle value) w in
  if JS.truthy_at (fieldErrors c) "title"
  then with_app (setFieldErrors (fun prev => <["title" := JS.Null]> prev)) w
  else w.

Definition descriptionChange (c : AppState.t) (value : string) (w : World)
  : World :=
  let w := with_app (setDescription value) w in
  if JS.truthy_at (fieldErrors c) "description"
  then with_app
         (setFieldErrors (fun prev => <["description" := JS.Null]> prev)) w
  else w.

(** The [onClick] of the Cancel button of the task form. *)
Definition cancelEdit (w : World) : World :=
  let w := with_app (setEditingTask None) w in
  let w := with_app (setTitle "") w in
  let w := with_app (setDescription "") w in
  with_app (setFieldErrors (fun _ => ∅)) w.

(** [onHide] and the Cancel button of the modal. *)
Definition hideModal : World -> World :=
  with_app (setShowDeleteModal false).

(** [onClose] of the toast: [setToast({...toast, show:false})]. *)
Definition closeToast (c : AppState.t) : World -> World :=
  with_app (setToast {| Toast.show := false;
                        Toast.msg := Toast.msg (toast c);
                        Toast.variant := Toast.variant (toast c) |}).

(** The effect with dependencies [[filterQ, filterStatus, userLoaded]]:
    after the render [cur] that follows the render [prev], it runs when one
    of the three differs. *)
Definition deps_changed (prev cur : AppState.t) : bool :=
  negb (String.eqb (filterQ prev) (filterQ cur)
        && String.eqb (filterStatus prev) (filterStatus cur)
        && Bool.eqb (userLoaded prev) (userLoaded cur)).

Definition listEffect (prev : AppState.t) (w : World) : World :=
  if deps_changed prev (app w)
  then if userLoaded (app w) then loadTasks (app w) w else w
  else w.

End App.

(** ** [App.js]: the [AuthForm] component *)

Module AuthForm.

Import AuthFormState Regex.

(** [/^[^\s@]+@[^\s@]+\.[^\s@]+$/] *)
Definition emailRegex : pattern :=
  {| from_start := true;
     body :=
       Cat (Plus (Class not_space_at))
         (Cat (Class (chr "@"))
            (Cat (Plus (Class not_space_at))
               (Cat (Class (chr "."))
                  (Plus (Class not_space_at)))));
     to_end := true |}.

Definition validateEmail (value : string) : string :=
  if negb (JS.truthy value) then "Email is required"
  else if negb (test emailRegex value) then "Invalid email"
  else "".

(** [/[A-Z]/], [/[a-z]/], [/\d/] and [/[@$!%*?&]/] *)
Definition upperRegex : pattern :=
  {| from_start := false; body := Class (between "A" "Z"); to_end := false |}.

Definition lowerRegex : pattern :=
  {| from_start := false; body := Class (between "a" "z"); to_end := false |}.

Definition digitRegex : pattern :=
  {| from_start := false; body := Class digit; to_end := false |}.

Definition specials : list ascii :=
  ["@"; "$"; "!"; "%"; "*"; "?"; "&"]%char.

Definition specialRegex : pattern :=
  {| from_start := false; body := Class (one_of specials); to_end := false |}.

(** [validatePassword] closes over [isLogin] of the render it belongs to. *)
Definition validatePassword (isLogin : bool) (value : string) : string :=
  if negb (JS.truthy value) then "Password is required"
  else if negb isLogin then
    if (String.length value <? 8)%nat
    then "Password must be at least 8 characters"
    else if negb (test upperRegex value)
    then "Must contain an uppercase letter"
    else if negb (test lowerRegex value)
    then "Must contain a lowercase letter"
    else if negb (test digitRegex value) then "Must contain a number"
    else if negb (test specialRegex value)
    then "Must contain a special character @$!%*?&"
    else ""
  else "".

(** [handleEmailChange] and [handlePasswordChange], on [e.target.value]. *)
Definition handleEmailChange (value : string) (w : World) : World :=
  let w := with_authForm (setEmail value) w in
  with_authForm
    (setFieldErrors (fun prev => <["email" := validateEmail value]> prev)) w.

Definition handlePasswordChange (f : AuthFormState.t) (value : string)
  (w : World) : World :=
  let w := with_authForm (setPassword value) w in
  with_authForm
    (setFieldErrors
       (fun prev => <["password" := validatePassword (isLogin f) value]> prev))
    w.

(** The [onClick] of the link button: [setIsLogin(!isLogin)]. *)
Definition switchMode (f : AuthFormState.t) : World -> World :=
  with_authForm (setIsLogin (negb (isLogin f))).

(** [submit], up to its [await].  [f] is the render of the form and [c] the
    render of [App] that passed [onAuthSuccess] and [showToast]. *)
Definition submit (f : AuthFormState.t) (c : AppState.t) (w : World)
  : World :=
  let emailErr := validateEmail (email f) in
  let passwordErr := validatePassword (isLogin f) (password f) in
  let w :=
    with_authForm
      (setFieldErrors
         (fun _ => <["password" := passwordErr]> (<["email" := emailErr]> ∅)))
      w in
  if JS.truthy emailErr || JS.truthy passwordErr then w
  else
    let w := with_authForm (setLoading true) w in
    let fn := if isLogin f then AuthService.login else AuthService.signup in
    request (fn (email f) (password f)) (AuthSubmitK c) w.

(** [err.response?.data?.errors?.[0]?.msg] *)
Definition first_error_msg (err : error) : option string :=
  match response err with
  | Some res =>
      match Response.errors (Response.data res) with
      | Some (x :: _) => Some (FieldError.msg x)
      | Some [] => None
      | None => None
      end
  | None => None
  end.

(** [err.response?.data?.message] *)
Definition response_message (err : error) : option string :=
  match response err with
  | Some res => Response.message (Response.data res)
  | None => None
  end.

(** The message of the [catch] block: the first of the three that is truthy. *)
Definition failure_msg (err : error) : string :=
  match JS.or_else (first_error_msg err) (response_message err) with
  | Some s => if JS.truthy s then s else "Auth failed"
  | None => "Auth failed"
  end.

(** [submit], from its [await] on.  Whatever the fulfilled request
    carries, [res.data.token] is stored: a body without the property stores
    the text [undefined].  [onAuthSuccess] is [App.handleAuthSuccess] and
    [showToast] is [App.showToast]; [finally] closes both branches. *)
Definition submit_settled (c : AppState.t) (r : reply) (w : World)
  : World :=
  match r with
  | Fulfilled d =>
      let w := setItem "token" (JS.string_of (data_token d)) w in
      let w := App.showToast "Logged in successfully" "success" w in
      let w := App.handleAuthSuccess c w in
      with_authForm (setLoading false) w
  | Rejected err =>
      let msg := failure_msg err in
      let w :=
        with_authForm (setFieldErrors (fun prev => <["form" := msg]> prev))
          w in
      let w := App.showToast msg "danger" w in
      with_authForm (setLoading false) w
  end.

End AuthForm.

(** ** The event loop *)

(** What the user can do on the page. *)
Inductive action :=
| EmailChange (value : string)
| PasswordChange (value : string)
| SwitchMode
| AuthSubmit
| TitleChange (value : string)
| DescriptionChange (value : string)
| TaskSubmit
| CancelEdit
| FilterQChange (value : string)
| FilterStatusChange (value : string)
| Search
| Toggle (task : Task.t)
| Edit (task : Task.t)
| ConfirmDelete (id : string)
| DeleteConfirm
| HideModal
| Logout
| CloseToast.

(** One turn of the event loop: the user acts, or the network settles the
    request at position [i] of those in flight. *)
Inductive event :=
| User (a : action)
| Settle (i : nat) (r : reply).

(** The handler the rendered page attaches to each action; handlers close
    over the current render. *)
Definition handle (a : action) (w : World) : World :=
  let f := authForm w in
  let c := app w in
  match a with
  | EmailChange v => AuthForm.handleEmailChange v w
  | PasswordChange v => AuthForm.handlePasswordChange f v w
  | SwitchMode => AuthForm.switchMode f w
  | AuthSubmit => AuthForm.submit f c w
  | TitleChange v => App.titleChange c v w
  | DescriptionChange v => App.descriptionChange c v w
  | TaskSubmit => App.handleSubmit c w
  | CancelEdit => App.cancelEdit w
  | FilterQChange v => with_app (AppState.setFilterQ v) w
  | FilterStatusChange v => with_app (AppState.setFilterStatus v) w
  | Search => App.loadTasks c w
  | Toggle task => App.toggleStatus c task w
  | Edit task => App.handleEdit task w
  | ConfirmDelete id => App.confirmDelete id w
  | DeleteConfirm => App.handleDeleteConfirm c w
  | HideModal => App.hideModal w
  | Logout => App.logout w
  | CloseToast => App.closeToast c w
  end.

(** The suspended function takes the reply and runs to its end. *)
Definition resume (k : cont) (r : reply) (w : World) : option World :=
  match k with
  | LoadTasksK => App.loadTasks_settled r w
  | AuthSubmitK c => Some (AuthForm.submit_settled c r w)
  | HandleSubmitK c => Some (App.handleSubmit_settled c r w)
  | ToggleStatusK c => Some (App.toggleStatus_settled c r w)
  | HandleDeleteConfirmK c => Some (App.handleDeleteConfirm_settled c r w)
  end.

(** After a turn React renders again and runs the effects whose
    dependencies changed.  [AuthForm] is mounted exactly while [userLoaded]
    is false, and starts from its initial state each time. *)
Definition commit (prev : AppState.t) (w : World) : World :=
  let w :=
    if Bool.eqb (AppState.userLoaded prev) (AppState.userLoaded (app w))
    then w else with_authForm (fun _ => AuthFormState.initial) w in
  App.listEffect prev w.

Definition step (ev : event) (w : World) : option World :=
  match ev with
  | User a => Some (commit (app w) (handle a w))
  | Settle i r =>
      match pending w !! i with
      | Some k =>
          commit (app w) <$> resume k r (with_pending (base.delete i) w)
      | None => None
      end
  end.

(** The first render and its two effects: the mount effect reads the token,
    and the list effect sees [userLoaded] still false. *)
Definition mount (storage : gmap string string) : World :=
  let w :=
    {| localStorage := storage; authForm := AuthFormState.initial;
       app := AppState.initial; console := []; sent := []; pending := [] |} in
  let w :=
    match storage !! "token" with
    | Some token =>
        if JS.truthy token
        then App.loadTasks AppState.initial
               (with_app (AppState.setUserLoaded true) w)
        else with_app (AppState.setUserLoaded false) w
    | None => with_app (AppState.setUserLoaded false) w
    end in
  commit AppState.initial w.

(** A run of the page, and the worlds it passes through. *)
Fixpoint run (evs : list event) (w : World) : option World :=
  match evs with
  | [] => Some w
  | ev :: evs' =>
      match step ev w with
      | Some w' => run evs' w'
      | None => None
      end
  end.

(** The number of requests in flight. *)
Definition in_flight (w : World) : nat := List.length (pending w).

(** ** Vocabulary of the statements *)

(** The e-mail pattern: [local@domain.tld], three non-empty runs free of
    white space and of [@]. *)
Definition email_shape (s : list ascii) : Prop :=
  exists a b c,
    s = a ++ "@"%char :: b ++ "."%char :: c
    /\ a <> [] /\ b <> [] /\ c <> []
    /\ Forall (fun x => Regex.not_space_at x = true) (a ++ b ++ c).

(** The body returned to the auth request that the turn [ev] settles with
    success, if that is what [ev] does. *)
Definition auth_success (ev : event) (w : World) : option payload :=
  match ev with
  | Settle i (Fulfilled d) =>
      match pending w !! i with
      | Some (AuthSubmitK _) => Some d
      | _ => None
      end
  | _ => None
  end.

(** A task-create request is a [POST] to [/tasks]. *)
Definition is_create (cfg : Api.config) : bool :=
  match Api.method cfg with
  | Api.POST => String.eqb (Api.url cfg) "/tasks"
  | _ => false
  end.

(** The [status] property of a request body, when it has one. *)
Definition body_status (cfg : Api.config) : option string :=
  match Api.data cfg with
  | Api.TaskFields _ _ status => Some status
  | Api.TaskObject t => Some (Task.status t)
  | Api.Credentials _ _ => None
  | Api.NoBody => None
  end.

(** The replies on which a suspended function removes the token. *)
Definition clears_token (k : cont) (r : reply) : bool :=
  match k, r with
  | LoadTasksK, Rejected err => status_is err 401
  | HandleSubmitK _, Rejected err => status_is err 401
  | _, _ => false
  end.

(** The token a reply makes a suspended function store. *)
Definition stores_token (k : cont) (r : reply) : option string :=
  match k, r with
  | AuthSubmitK _, Fulfilled d => Some (JS.string_of (data_token d))
  | _, _ => None
  end.

(** An error notification is on display. *)
Definition error_toast (w : World) : Prop :=
  Toast.show (AppState.toast (app w)) = true
  /\ Toast.variant (AppState.toast (app w)) = "danger".

(** What C9 asks of one request. *)
Definition pending_if_create (cfg : Api.config) : Prop :=
  is_create cfg = true -> body_status cfg = Some "pending".

(** ** Sample data for the examples *)

Definition no_body : Response.body :=
  {| Response.errors := None; Response.message := None |}.

(** A 401 and a 500 from the server. *)
Definition unauthorized : error :=
  {| response := Some {| Response.status := 401; Response.data := no_body |} |}.

Definition server_error : error :=
  {| response := Some {| Response.status := 500; Response.data := no_body |} |}.

(** A 400 whose [errors] array blames the e-mail field. *)
Definition email_taken : error :=
  {| response :=
       Some {| Response.status := 400;
               Response.data :=
                 {| Response.errors :=
                      Some [{| FieldError.path := "email";
                               FieldError.msg := "Email already in use" |}];
                    Response.message := None |} |} |}.

(** A 400 whose [errors] array blames the title of the task form. *)
Definition title_too_short : error :=
  {| response :=
       Some {| Response.status := 400;
               Response.data :=
                 {| Response.errors :=
                      Some [{| FieldError.path := "title";
                               FieldError.msg := "Too short" |}];
                    Response.message := None |} |} |}.

Definition sample_task : Task.t :=
  {| Task._id := "t1"; Task.title := "write"; Task.description := "";
     Task.status := "pending"; Task.rest := [] |}.

(** The page opened with a token stored, both list requests answered. *)
Definition signed_in : list event :=
  [Settle 0 (Fulfilled (TaskList [sample_task]));
   Settle 0 (Fulfilled (TaskList [sample_task]))].

(** The sign-in form filled with credentials that pass validation. *)
Definition credentials_typed : list event :=
  [User (EmailChange "a@b.c"); User (PasswordChange "secret")].





(** ** What the page shows *)

Module View.

(** The two screens of [App]: [if(!userLoaded) return ...]. *)
Inductive screen := AuthScreen | TaskScreen.

Definition screen_of (a : AppState.t) : screen :=
  if AppState.userLoaded a then TaskScreen else AuthScreen.

(** The label of the status button of a task item:
    [{t.status==='done'?'Done':'Pending'}]. *)
Definition statusLabel (t : Task.t) : string :=
  if String.eqb (Task.status t) "done" then "Done" else "Pending".

(** [isInvalid={!!fieldErrors.email}] and the like on the auth form, where
    an absent key reads [undefined]. *)
Definition isInvalid (o : gmap string string) (k : string) : bool :=
  match o !! k with
  | Some s => JS.truthy s
  | None => false
  end.

End View.

(** ** More vocabulary *)

(** Some code unit of [v] is in the class [p]. *)
Definition contains (p : ascii -> bool) (v : string) : Prop :=
  Exists (fun c => p c = true) (list_ascii_of_string v).

(** The requests a turn sent. *)
Definition sent_by (w w' : World) : list Api.config :=
  drop (List.length (sent w)) (sent w').

(** The endpoints of the server and what the client sends to each. *)
Definition endpoint (cfg : Api.config) : Prop :=
  Api.baseURL cfg = Api.API_BASE
  /\ match Api.method cfg, Api.data cfg with
     | Api.POST, Api.Credentials _ _ =>
         Api.url cfg = "/auth/login" \/ Api.url cfg = "/auth/signup"
     | Api.GET, Api.NoBody => Api.url cfg = "/tasks"
     | Api.POST, Api.TaskFields _ _ status =>
         Api.url cfg = "/tasks" /\ status = "pending"
     | Api.PUT, Api.TaskFields _ _ _ =>
         exists id, Api.url cfg = "/tasks/" +:+ id
     | Api.PUT, Api.TaskObject t =>
         Api.url cfg = "/tasks/" +:+ Task._id t
     | Api.DELETE, Api.NoBody => exists id, Api.url cfg = "/tasks/" +:+ id
     | _, _ => False
     end.

(** The stored token and the screen agree. *)
Definition session_consistent (w : World) : Prop :=
  (AppState.userLoaded (app w) = true -> is_Some (localStorage w !! "token"))
  /\ (forall token,
         localStorage w !! "token" = Some token -> token <> "" ->
         AppState.userLoaded (app w) = true).

(** The handlers of the auth form leave [App] alone: no effect runs. *)
Definition form_action (a : action) : Prop :=
  match a with
  | EmailChange _ | PasswordChange _ | SwitchMode | AuthSubmit => True
  | _ => False
  end.

(** * Properties *)

(** ** The matcher decides the denotation *)

Section RegexFacts.

Import Regex.

Lemma nullable_matches r : nullable r = true <-> matches r [].
Proof.
  split.
  - induction r; simpl; intros H; try discriminate.
    + constructor.
    + apply andb_true_iff in H as [H1 H2].
      change (@nil ascii) with (@nil ascii ++ []). constructor; auto.
    + apply orb_true_iff in H as [H | H].
      * apply matches_alt_l; auto.
      * apply matches_alt_r; auto.
    + constructor.
  - intros H. remember [] as s eqn:Hs.
    induction H; simpl; subst; try discriminate; auto.
    + apply app_eq_nil in Hs as [-> ->].
      rewrite IHmatches1, IHmatches2; auto.
    + rewrite IHmatches; auto.
    + rewrite IHmatches; auto. apply orb_true_r.
Qed.

Lemma matches_star_cons r c s :
  matches (Star r) (c :: s) ->
  exists s1 s2, s = s1 ++ s2 /\ matches r (c :: s1) /\ matches (Star r) s2.
Proof.
  intros H. remember (Star r) as r' eqn:Hr. remember (c :: s) as s' eqn:Hs.
  revert Hr Hs.
  induction H as [| | | | | |r0 s1 s2 H1 _ H2 IH2]; try discriminate.
  intros Hr Hs. injection Hr as ->.
  destruct s1 as [|c1 s1]; simpl in Hs.
  - apply IH2; auto.
  - injection Hs as -> <-. exists s1, s2. auto.
Qed.

Lemma matches_cat_inv r1 r2 s :
  matches (Cat r1 r2) s ->
  exists s1 s2, s = s1 ++ s2 /\ matches r1 s1 /\ matches r2 s2.
Proof. inversion 1; subst; eauto. Qed.

Lemma matches_alt_inv r1 r2 s :
  matches (Alt r1 r2) s -> matches r1 s \/ matches r2 s.
Proof. inversion 1; subst; auto. Qed.

Lemma matches_class_inv p s :
  matches (Class p) s -> exists c, s = [c] /\ p c = true.
Proof. inversion 1; subst; eauto. Qed.

Lemma matches_eps_inv s : matches Eps s -> s = [].
Proof. inversion 1; auto. Qed.

Lemma matches_cat_cons r1 r2 c s1 s2 :
  matches r1 (c :: s1) -> matches r2 s2 -> matches (Cat r1 r2) (c :: s1 ++ s2).
Proof. intros. change (c :: s1 ++ s2) with ((c :: s1) ++ s2). constructor; auto. Qed.

Lemma deriv_matches c r s : matches (deriv c r) s <-> matches r (c :: s).
Proof.
  revert s. induction r as [| |p|r1 IH1 r2 IH2|r1 IH1 r2 IH2|r IH];
    intros s; simpl.
  - split; inversion 1.
  - split; inversion 1.
  - destruct (p c) eqn:Hp; split; intros H.
    + apply matches_eps_inv in H as ->. constructor; auto.
    + apply matches_class_inv in H as (c' & [= <- ->] & _). constructor.
    + inversion H.
    + apply matches_class_inv in H as (c' & [= <- ->] & Hc). congruence.
  - assert (Hcat : matches (Cat (deriv c r1) r2) s ->
                   matches (Cat r1 r2) (c :: s)).
    { intros H. apply matches_cat_inv in H as (s1 & s2 & -> & Ha & Hb).
      apply matches_cat_cons; auto. apply IH1; auto. }
    destruct (nullable r1) eqn:Hn; split; intros H.
    + apply matches_alt_inv in H as [H | H]; auto.
      apply IH2 in H. apply nullable_matches in Hn.
      change (c :: s) with ([] ++ c :: s). constructor; auto.
    + apply matches_cat_inv in H as (s1 & s2 & Hs & Ha & Hb).
      destruct s1 as [|c1 s1]; simpl in Hs.
      * subst s2. apply matches_alt_r. apply IH2; auto.
      * injection Hs as <- ->. apply matches_alt_l.
        constructor; auto. apply IH1; auto.
    + auto.
    + apply matches_cat_inv in H as (s1 & s2 & Hs & Ha & Hb).
      destruct s1 as [|c1 s1]; simpl in Hs.
      * apply nullable_matches in Ha. congruence.
      * injection Hs as <- ->. constructor; auto. apply IH1; auto.
  - split; intros H.
    + apply matches_alt_inv in H as [H | H].
      * apply matches_alt_l, IH1; auto.
      * apply matches_alt_r, IH2; auto.
    + apply matches_alt_inv in H as [H | H].
      * apply matches_alt_l, IH1; auto.
      * apply matches_alt_r, IH2; auto.
  - split; intros H.
    + apply matches_cat_inv in H as (s1 & s2 & -> & Ha & Hb).
      apply IH in Ha.
      change (c :: s1 ++ s2) with ((c :: s1) ++ s2).
      apply matches_star_app; auto.
    + apply matches_star_cons in H as (s1 & s2 & -> & Ha & Hb).
      constructor; auto. apply IH; auto.
Qed.

Lemma accepts_matches r s : accepts r s = true <-> matches r s.
Proof.
  revert r. induction s as [|c s IH]; intros r; simpl.
  - apply nullable_matches.
  - rewrite IH. apply deriv_matches.
Qed.

End RegexFacts.

Section RegexShapes.

Import Regex.

Lemma matches_star_class p s :
  matches (Star (Class p)) s <-> Forall (fun c => p c = true) s.
Proof.
  split.
  - induction s as [|c s IH]; intros H; constructor.
    + apply matches_star_cons in H as (s1 & s2 & -> & Ha & _).
      apply matches_class_inv in Ha as (c' & [= <- _] & Hc). exact Hc.
    + apply matches_star_cons in H as (s1 & s2 & -> & Ha & Hb).
      apply matches_class_inv in Ha as (c' & [= _ ->] & _). auto.
  - induction 1 as [|c s Hc _ IH].
    + constructor.
    + change (c :: s) with ([c] ++ s). constructor; auto. constructor; auto.
Qed.

Lemma matches_star_any s : matches (Star any) s.
Proof. apply matches_star_class. induction s; constructor; auto. Qed.

Lemma matches_plus_class p s :
  matches (Plus (Class p)) s <-> s <> [] /\ Forall (fun c => p c = true) s.
Proof.
  unfold Plus. split.
  - intros H. apply matches_cat_inv in H as (s1 & s2 & -> & Ha & Hb).
    apply matches_class_inv in Ha as (c & -> & Hc).
    apply matches_star_class in Hb. split; [discriminate | constructor; auto].
  - intros [Hne Hall]. destruct s as [|c s]; [congruence |].
    inversion Hall; subst.
    change (c :: s) with ([c] ++ s). constructor.
    + constructor; auto.
    + apply matches_star_class; auto.
Qed.

(** An unanchored one-character pattern finds a code unit of the class. *)
Lemma test_class p s :
  test {| from_start := false; body := Class p; to_end := false |} s = true
  <-> Exists (fun c => p c = true) (list_ascii_of_string s).
Proof.
  unfold test; simpl from_start; simpl body; simpl to_end; cbv iota.
  rewrite accepts_matches. split.
  - intros H. apply matches_cat_inv in H as (s1 & s2 & -> & _ & H).
    apply matches_cat_inv in H as (s3 & s4 & -> & H & _).
    apply matches_class_inv in H as (c & -> & Hc).
    apply Exists_app. right. constructor. exact Hc.
  - intros H. apply Exists_exists in H as (c & Hin & Hc).
    apply list_elem_of_split in Hin as (s1 & s2 & Hs). rewrite Hs.
    constructor; [apply matches_star_any |].
    change (c :: s2) with ([c] ++ s2).
    constructor; [constructor; auto | apply matches_star_any].
Qed.

Lemma chr_true x c : chr x c = true <-> c = x.
Proof. unfold chr. apply Ascii.eqb_eq. Qed.

Lemma test_emailRegex s :
  test AuthForm.emailRegex s = true <-> email_shape (list_ascii_of_string s).
Proof.
  unfold test, AuthForm.emailRegex; simpl from_start; simpl body;
    simpl to_end; cbv iota.
  rewrite accepts_matches. unfold email_shape. split.
  - intros H.
    apply matches_cat_inv in H as (s0 & s' & -> & H0 & H).
    apply matches_eps_inv in H0 as ->.
    apply matches_cat_inv in H as (s1 & s2 & -> & H & He).
    apply matches_eps_inv in He as ->.
    apply matches_cat_inv in H as (a & s3 & -> & Ha & H).
    apply matches_cat_inv in H as (at' & s4 & -> & Hat & H).
    apply matches_cat_inv in H as (b & s5 & -> & Hb & H).
    apply matches_cat_inv in H as (dot & c & -> & Hdot & Hc).
    apply matches_class_inv in Hat as (x & -> & ->%chr_true).
    apply matches_class_inv in Hdot as (y & -> & ->%chr_true).
    apply matches_plus_class in Ha as [Ha1 Ha2].
    apply matches_plus_class in Hb as [Hb1 Hb2].
    apply matches_plus_class in Hc as [Hc1 Hc2].
    exists a, b, c. repeat split; auto.
    + simpl. rewrite app_nil_r. reflexivity.
    + apply Forall_app; split; auto. apply Forall_app; split; auto.
  - intros (a & b & c & -> & Ha & Hb & Hc & Hall).
    apply Forall_app in Hall as [Halla Hall].
    apply Forall_app in Hall as [Hallb Hallc].
    change (a ++ "@"%char :: b ++ "."%char :: c)
      with ([] ++ a ++ "@"%char :: b ++ "."%char :: c).
    constructor; [constructor |].
    rewrite <- (app_nil_r (a ++ _)).
    constructor; [| constructor].
    constructor; [apply matches_plus_class; auto |].
    change ("@"%char :: b ++ "."%char :: c)
      with (["@"%char] ++ b ++ "."%char :: c).
    constructor; [constructor; apply chr_true; auto |].
    constructor; [apply matches_plus_class; auto |].
    change ("."%char :: c) with (["."%char] ++ c).
    constructor; [constructor; apply chr_true; auto |].
    apply matches_plus_class; auto.
Qed.

End RegexShapes.

(** ** Client-side validation *)

Section Validation.

Import Regex AuthForm.

Lemma test_false_class p s :
  test {| from_start := false; body := Class p; to_end := false |} s = false
  <-> ~ Exists (fun c => p c = true) (list_ascii_of_string s).
Proof. rewrite <- test_class. destruct (test _ s); split; congruence. Qed.

Lemma validateEmail_accepts value :
  validateEmail value = "" <-> email_shape (list_ascii_of_string value).
Proof.
  unfold validateEmail. destruct value as [|x value]; simpl JS.truthy; simpl negb.
  - split; [discriminate |].
    intros (a & b & c & Hs & Ha & _). destruct a; [congruence | discriminate].
  - rewrite <- test_emailRegex.
    destruct (test emailRegex (String x value)); simpl; split;
      congruence || discriminate.
Qed.

Lemma validatePassword_login value :
  validatePassword true value = "" <-> value <> "".
Proof.
  unfold validatePassword. destruct value; simpl; split;
    congruence || discriminate.
Qed.

Lemma validatePassword_signup value :
  validatePassword false value = "" <->
  (8 <= String.length value)%nat
  /\ Exists (fun c => between "A" "Z" c = true) (list_ascii_of_string value)
  /\ Exists (fun c => between "a" "z" c = true) (list_ascii_of_string value)
  /\ Exists (fun c => digit c = true) (list_ascii_of_string value)
  /\ Exists (fun c => one_of specials c = true) (list_ascii_of_string value).
Proof.
  unfold validatePassword.
  destruct value as [|x value]; simpl JS.truthy; simpl negb; cbv iota.
  - split; [discriminate | simpl; lia].
  - rewrite <- !test_class.
    fold upperRegex lowerRegex digitRegex specialRegex.
    destruct (Nat.ltb_spec (String.length (String x value)) 8) as [Hlt | Hge].
    { split; [discriminate | lia]. }
    destruct (test upperRegex _); simpl negb; cbv iota;
      [| split; [discriminate | intros (_ & ? & _); discriminate]].
    destruct (test lowerRegex _); simpl negb; cbv iota;
      [| split; [discriminate | intros (_ & _ & ? & _); discriminate]].
    destruct (test digitRegex _); simpl negb; cbv iota;
      [| split; [discriminate | intros (_ & _ & _ & ? & _); discriminate]].
    destruct (test specialRegex _); simpl negb; cbv iota;
      [| split; [discriminate | intros (_ & _ & _ & _ & ?); discriminate]].
    split; auto.
Qed.

End Validation.

Section ValidationClaim.

Import AuthForm.

(** C5, as stated, fails: ["abc"] is present as an e-mail and as a password,
    and the sign-up form rejects both. *)
Lemma presence_is_not_enough :
  ~ (forall (isLogin : bool) (email password : string),
        email <> "" -> password <> "" ->
        validateEmail email = "" /\ validatePassword isLogin password = "").
Proof.
  intros H.
  destruct (H false "abc" "abc") as [He _]; [discriminate | discriminate |].
  vm_compute in He. discriminate.
Qed.

(** C5 (amended): client-side validation accepts every non-empty password in
    login mode; in sign-up mode it accepts exactly the passwords of at least
    8 code units that contain an upper-case letter, a lower-case letter, a
    digit and one of [@$!%*?&]; in both modes it accepts exactly the e-mails
    of the shape [local@domain.tld], three non-empty runs without white
    space and without [@]. *)
Theorem validation_accepts_exactly :
  (forall password, validatePassword true password = "" <-> password <> "")
  /\ (forall password,
         validatePassword false password = "" <->
         (8 <= String.length password)%nat
         /\ Exists (fun c => Regex.between "A" "Z" c = true)
              (list_ascii_of_string password)
         /\ Exists (fun c => Regex.between "a" "z" c = true)
              (list_ascii_of_string password)
         /\ Exists (fun c => Regex.digit c = true)
              (list_ascii_of_string password)
         /\ Exists (fun c => Regex.one_of specials c = true)
              (list_ascii_of_string password))
  /\ (forall email,
         validateEmail email = "" <->
         email_shape (list_ascii_of_string email)).
Proof.
  split; [exact validatePassword_login |].
  split; [exact validatePassword_signup | exact validateEmail_accepts].
Qed.

End ValidationClaim.

(** ** Requests *)

Lemma interceptor_keeps ls cfg :
  Api.method (Api.interceptor ls cfg) = Api.method cfg
  /\ Api.url (Api.interceptor ls cfg) = Api.url cfg
  /\ Api.params (Api.interceptor ls cfg) = Api.params cfg
  /\ Api.data (Api.interceptor ls cfg) = Api.data cfg.
Proof.
  unfold Api.interceptor. destruct (ls !! "token") as [token|]; auto.
  destruct (JS.truthy token); auto.
Qed.

Lemma truthy_true s : JS.truthy s = true <-> s <> "".
Proof. destruct s; simpl; split; congruence || discriminate. Qed.

Lemma truthy_false s : JS.truthy s = false <-> s = "".
Proof. destruct s; simpl; split; congruence || discriminate. Qed.

Lemma interceptor_header ls cfg :
  Api.headers cfg !! "Authorization" = None ->
  Api.headers (Api.interceptor ls cfg) !! "Authorization" =
    match ls !! "token" with
    | Some token => if JS.truthy token then Some ("Bearer " +:+ token) else None
    | None => None
    end.
Proof.
  intros H. unfold Api.interceptor.
  destruct (ls !! "token") as [token|]; auto.
  destruct (JS.truthy token); auto.
  simpl. apply lookup_insert_eq.
Qed.

Lemma bearer_inj (a b : string) : "Bearer " +:+ a = "Bearer " +:+ b -> a = b.
Proof. intros H. cbv in H. congruence. Qed.

(** C6, as stated, fails when the stored token is the empty string: the key
    is present, and the request leaves without the header. *)
Lemma empty_token_is_not_attached :
  ~ (forall (ls : gmap string string) (cfg : Api.config) (t : string),
        Api.headers cfg !! "Authorization" = None ->
        (Api.headers (Api.interceptor ls cfg) !! "Authorization"
           = Some ("Bearer " +:+ t)
         <-> ls !! "token" = Some t)).
Proof.
  intros H.
  specialize (H {["token" := ""]} (Api.get "/tasks" ∅) "" eq_refl).
  destruct H as [_ H]. specialize (H eq_refl). vm_compute in H. discriminate.
Qed.

(** C6 (amended): a request built without the header carries
    [Authorization: Bearer t] exactly when a non-empty token [t] is stored
    when it is issued; with no token, or the empty string, stored, it carries
    no [Authorization] header. *)
Theorem bearer_header_iff_truthy_token
  (ls : gmap string string) (cfg : Api.config) (t : string) :
  Api.headers cfg !! "Authorization" = None ->
  (Api.headers (Api.interceptor ls cfg) !! "Authorization"
     = Some ("Bearer " +:+ t)
   <-> ls !! "token" = Some t /\ t <> "")
  /\ (ls !! "token" = None \/ ls !! "token" = Some "" ->
      Api.headers (Api.interceptor ls cfg) !! "Authorization" = None).
Proof.
  intros H. rewrite (interceptor_header ls cfg H). split.
  - destruct (ls !! "token") as [token|]; [| split; [discriminate | intros [? _]; discriminate]].
    destruct (JS.truthy token) eqn:Ht.
    + apply truthy_true in Ht. split.
      * intros Heq. assert (token = t) as -> by (apply bearer_inj; congruence).
        auto.
      * intros [[= ->] _]. reflexivity.
    + apply truthy_false in Ht. subst token. split; [discriminate |].
      intros [[= <-] Hne]. congruence.
  - intros [-> | ->]; reflexivity.
Qed.

Lemma bearer_header_iff_truthy_token_witness :
  Api.headers (Api.interceptor {["token" := "abc"]} (Api.get "/tasks" ∅))
    !! "Authorization" = Some "Bearer abc".
Proof.
  apply (bearer_header_iff_truthy_token
           {["token" := "abc"]} (Api.get "/tasks" ∅) "abc").
  - reflexivity.
  - split; [reflexivity | discriminate].
Defined.

(** ** Handlers and the event loop *)

Lemma deps_changed_same c : App.deps_changed c c = false.
Proof.
  unfold App.deps_changed.
  rewrite !String.eqb_refl, Bool.eqb_reflx. reflexivity.
Qed.

(** A turn that leaves the state of [App] alone runs no effect. *)
Lemma commit_same_app prev w : app w = prev -> commit prev w = w.
Proof.
  intros <-. unfold commit, App.listEffect.
  rewrite Bool.eqb_reflx, deps_changed_same. reflexivity.
Qed.

Ltac world :=
  unfold App.showToast, App.loadTasks, request, setItem, removeItem,
    console_error, with_app, with_authForm, with_localStorage,
    with_pending in *;
  simpl localStorage in *; simpl authForm in *; simpl app in *;
  simpl console in *; simpl sent in *; simpl pending in *.

Section AuthSubmit.

Import AuthFormState.

(** C10: when the validation of the e-mail or of the password fails, an auth
    submit sends no request and puts the two computed errors on the form;
    a request leaves only when both validations return no error. *)
Theorem invalid_auth_submit_sends_nothing (w w' : World) :
  step (User AuthSubmit) w = Some w' ->
  let f := authForm w in
  let emailErr := AuthForm.validateEmail (email f) in
  let passwordErr := AuthForm.validatePassword (isLogin f) (password f) in
  (emailErr <> "" \/ passwordErr <> "" ->
   sent w' = sent w /\ pending w' = pending w
   /\ fieldErrors (authForm w')
      = <["password" := passwordErr]> (<["email" := emailErr]> ∅))
  /\ (sent w' <> sent w -> emailErr = "" /\ passwordErr = "")
  /\ (emailErr = "" /\ passwordErr = "" ->
      sent w'
      = sent w
        ++ [Api.interceptor (localStorage w)
              ((if isLogin f then AuthService.login else AuthService.signup)
                 (email f) (password f))]).
Proof.
  intros Hstep f emailErr passwordErr. simpl in Hstep.
  injection Hstep as <-.
  rewrite commit_same_app.
  2:{ unfold AuthForm.submit.
      destruct (JS.truthy _ || JS.truthy _); reflexivity. }
  unfold AuthForm.submit. fold f. fold emailErr passwordErr.
  destruct (JS.truthy emailErr) eqn:He, (JS.truthy passwordErr) eqn:Hp;
    simpl orb; cbv iota.
  1-3: split; [intros _; auto |];
    split; [intros Hne; exfalso; apply Hne; reflexivity |];
    intros [He' Hp']; rewrite ?He', ?Hp' in *; discriminate.
  apply truthy_false in He, Hp. split; [| split].
  - intros [H | H]; congruence.
  - auto.
  - intros _. reflexivity.
Qed.

Lemma invalid_auth_submit_sends_nothing_witness :
  exists w',
    step (User AuthSubmit) (mount ∅) = Some w' /\ sent w' = sent (mount ∅).
Proof.
  eexists. split; [reflexivity |].
  apply (invalid_auth_submit_sends_nothing (mount ∅) _ eq_refl).
  left. vm_compute. discriminate.
Defined.

End AuthSubmit.

Section Toggle.

Import Task.

Lemma toggled_status task :
  status (App.toggled task)
  = if String.eqb (status task) "pending" then "done" else "pending".
Proof. reflexivity. Qed.

(** C8: toggling a task sends a [PUT] for that task whose body is the task
    with [status] replaced, by ['done'] when it was ['pending'] and by
    ['pending'] otherwise, every other field unchanged; for a status in
    {pending, done}, toggling twice gives back the original task. *)
Theorem toggle_sends_flipped_status (task : Task.t) (w w' : World) :
  step (User (Toggle task)) w = Some w' ->
  (exists cfg,
      sent w' = sent w ++ [cfg]
      /\ Api.method cfg = Api.PUT
      /\ Api.url cfg = "/tasks/" +:+ _id task
      /\ Api.data cfg = Api.TaskObject (App.toggled task))
  /\ (status task = "pending" -> status (App.toggled task) = "done")
  /\ (status task <> "pending" -> status (App.toggled task) = "pending")
  /\ _id (App.toggled task) = _id task
  /\ title (App.toggled task) = title task
  /\ description (App.toggled task) = description task
  /\ rest (App.toggled task) = rest task
  /\ (status task = "pending" \/ status task = "done" ->
      App.toggled (App.toggled task) = task).
Proof.
  intros Hstep. simpl in Hstep. injection Hstep as <-.
  rewrite commit_same_app by reflexivity.
  split; [| repeat split].
  - eexists. split; [reflexivity |].
    destruct (interceptor_keeps (localStorage w)
                (Api.put ("/tasks/" +:+ _id task)
                   (Api.TaskObject (App.toggled task)))) as (? & ? & _ & ?).
    auto.
  - intros H. rewrite toggled_status, H. reflexivity.
  - intros H. rewrite toggled_status.
    destruct (String.eqb_spec (status task) "pending"); congruence.
  - destruct task as [i t d s r]. simpl. intros [-> | ->]; reflexivity.
Qed.

Lemma toggle_sends_flipped_status_witness :
  let task :=
    {| _id := "t1"; title := "write"; description := "";
       status := "done"; rest := [] |} in
  exists w',
    step (User (Toggle task)) (mount ∅) = Some w'
    /\ App.toggled (App.toggled task) = task.
Proof.
  intros task. eexists. split; [reflexivity |].
  apply (toggle_sends_flipped_status task (mount ∅) _ eq_refl).
  right. reflexivity.
Defined.

End Toggle.

(** *** Reading a world after a handler ran *)

Ltac unfold_handlers :=
  unfold handle, resume, commit, App.listEffect,
    AuthForm.handleEmailChange, AuthForm.handlePasswordChange,
    AuthForm.switchMode, AuthForm.submit, AuthForm.submit_settled,
    App.titleChange, App.descriptionChange, App.handleSubmit,
    App.handleSubmit_settled, App.cancelEdit, App.toggleStatus,
    App.toggleStatus_settled, App.handleEdit, App.confirmDelete,
    App.handleDeleteConfirm, App.handleDeleteConfirm_settled, App.hideModal,
    App.logout, App.closeToast, App.loadTasks_settled.

(** Projections of a world through the primitive updates. *)
Ltac read_world :=
  cbn [localStorage authForm app console sent pending
       with_localStorage with_authForm with_app with_pending
       console_error request setItem removeItem
       App.showToast App.loadTasks App.handleAuthSuccess].

Ltac read_world_in H :=
  cbn [localStorage authForm app console sent pending
       with_localStorage with_authForm with_app with_pending
       console_error request setItem removeItem
       App.showToast App.loadTasks App.handleAuthSuccess] in H.

(** Case analysis on the conditions a handler tests. *)
Ltac branches :=
  repeat match goal with
         | |- context [match ?x with _ => _ end] => destruct x eqn:?
         end.

Lemma localStorage_commit prev w :
  localStorage (commit prev w) = localStorage w.
Proof. unfold_handlers. branches; reflexivity. Qed.

Lemma app_commit prev w : app (commit prev w) = app w.
Proof. unfold_handlers. branches; reflexivity. Qed.

Lemma localStorage_handle a w :
  localStorage (handle a w)
  = match a with
    | Logout => base.delete "token" (localStorage w)
    | _ => localStorage w
    end.
Proof. destruct a; unfold_handlers; branches; reflexivity. Qed.

Lemma status_400_401 res :
  (Response.status res =? 400)%nat = true ->
  (Response.status res =? 401)%nat = true -> False.
Proof. intros ->%Nat.eqb_eq. discriminate. Qed.

Lemma localStorage_resume k r w w' :
  resume k r w = Some w' ->
  localStorage w'
  = match stores_token k r with
    | Some token => <["token" := token]> (localStorage w)
    | None =>
        if clears_token k r then base.delete "token" (localStorage w)
        else localStorage w
    end.
Proof.
  unfold clears_token, stores_token, status_is.
  destruct k, r as [[l|token|]|err]; unfold_handlers;
    try discriminate; try (intros [= <-]; reflexivity).
  - unfold status_is. intros [= <-]. branches; reflexivity.
  - intros [= <-].
    branches; try reflexivity; exfalso; eauto using status_400_401.
Qed.

Lemma localStorage_mount storage : localStorage (mount storage) = storage.
Proof.
  unfold mount. rewrite localStorage_commit.
  destruct (storage !! "token") as [token|]; [destruct (JS.truthy token) |];
    reflexivity.
Qed.

(** C2: a turn stores a token exactly when it settles an auth submit (login
    or signup) with success: that turn always completes and stores
    [res.data.token], the token of the response body; any other turn leaves
    the stored token as it is or removes it, and logging out removes it. *)
Theorem token_set_only_by_auth_success (ev : event) (w : World) :
  (forall d,
      auth_success ev w = Some d ->
      exists w',
        step ev w = Some w'
        /\ localStorage w'
           = <["token" := JS.string_of (data_token d)]> (localStorage w)
        /\ (forall token,
               d = AuthData token -> localStorage w' !! "token" = Some token))
  /\ (forall w',
         step ev w = Some w' ->
         auth_success ev w = None ->
         localStorage w' = localStorage w
         \/ localStorage w' = base.delete "token" (localStorage w))
  /\ (ev = User Logout ->
      exists w', step ev w = Some w' /\ localStorage w' !! "token" = None).
Proof.
  destruct ev as [a | i r]; cbn [step auth_success].
  - split; [discriminate |]. split.
    + intros w' [= <-] _.
      rewrite localStorage_commit, localStorage_handle. destruct a; auto.
    + intros [= ->]. eexists. split; [reflexivity |].
      rewrite localStorage_commit, localStorage_handle.
      apply lookup_delete_eq.
  - split; [| split; [| discriminate]].
    + intros d Hd. destruct r as [d'|err]; [| discriminate].
      destruct (pending w !! i) as [[|c|c|c|c]|] eqn:Hk; try discriminate.
      injection Hd as ->.
      cbn [resume fmap option_fmap option_map]. eexists.
      split; [reflexivity |].
      rewrite localStorage_commit.
      rewrite (localStorage_resume (AuthSubmitK c) (Fulfilled d)
                 (with_pending (base.delete i) w) _ eq_refl).
      cbn [stores_token]. read_world. split; [reflexivity |].
      intros token ->. apply lookup_insert_eq.
    + intros w'. destruct (pending w !! i) as [k|] eqn:Hk; [| discriminate].
      destruct (resume k r _) as [w1|] eqn:Hr; [| discriminate].
      intros [= <-] Hnone. rewrite localStorage_commit.
      apply localStorage_resume in Hr. read_world_in Hr. rewrite Hr.
      unfold stores_token, clears_token.
      destruct k, r as [d|err]; try discriminate; auto;
        destruct (status_is err 401); auto.
Qed.

Lemma token_set_only_by_auth_success_witness :
  exists w w',
    run (credentials_typed ++ [User AuthSubmit]) (mount ∅) = Some w
    /\ step (Settle 0 (Fulfilled (AuthData "tok"))) w = Some w'
    /\ localStorage w' !! "token" = Some "tok".
Proof.
  eexists. eexists. split; [vm_compute; reflexivity |].
  match goal with |- step _ ?w = _ /\ _ => set (w0 := w) end.
  split; [vm_compute; reflexivity |].
  match goal with |- localStorage ?w !! _ = _ => set (w1 := w) end.
  destruct (proj1 (token_set_only_by_auth_success
                     (Settle 0 (Fulfilled (AuthData "tok"))) w0)
              (AuthData "tok"))
    as (w' & Hstep & _ & Htoken); [vm_compute; reflexivity |].
  assert (Hw1 : step (Settle 0 (Fulfilled (AuthData "tok"))) w0 = Some w1)
    by (vm_compute; reflexivity).
  rewrite Hw1 in Hstep. injection Hstep as <-.
  exact (Htoken "tok" eq_refl).
Defined.

(** *** Every task-create request asks for a pending task *)

Lemma pending_if_create_interceptor ls cfg :
  pending_if_create cfg -> pending_if_create (Api.interceptor ls cfg).
Proof.
  unfold pending_if_create, is_create, body_status.
  destruct (interceptor_keeps ls cfg) as (-> & -> & _ & ->). auto.
Qed.

Ltac requests_ok :=
  read_world;
  rewrite ?Forall_app, ?Forall_singleton;
  repeat split; auto;
  try (apply pending_if_create_interceptor;
       unfold pending_if_create, is_create, body_status; cbn;
       solve [auto | discriminate]).

Lemma created_pending_step ev w w' :
  step ev w = Some w' ->
  Forall pending_if_create (sent w) -> Forall pending_if_create (sent w').
Proof.
  intros Hstep Hinv. destruct ev as [a | i r]; cbn [step] in Hstep.
  - injection Hstep as <-.
    destruct a; unfold_handlers; branches; requests_ok.
  - destruct (pending w !! i) as [k|]; [| discriminate].
    destruct (resume k r _) as [w1|] eqn:Hr; [| discriminate].
    injection Hstep as <-. revert Hr.
    destruct k, r as [[l|token|]|err]; unfold_handlers;
      try discriminate; intros [= <-]; branches; requests_ok.
Qed.

Lemma created_pending_mount storage :
  Forall pending_if_create (sent (mount storage)).
Proof.
  unfold mount. unfold_handlers. branches; requests_ok; constructor.
Qed.

(** C9: every task-create request the client ever sends has status
    ['pending'] in its body, whatever the user typed. *)
Theorem create_request_is_pending
  (storage : gmap string string) (evs : list event) (w : World)
  (cfg : Api.config) :
  run evs (mount storage) = Some w ->
  cfg ∈ sent w ->
  is_create cfg = true ->
  body_status cfg = Some "pending".
Proof.
  intros Hrun Hin.
  assert (Hinv : Forall pending_if_create (sent w)).
  { pose proof (created_pending_mount storage) as H0.
    revert Hrun H0. generalize (mount storage) as w0.
    induction evs as [|ev evs IH]; intros w0 Hrun H0; simpl in Hrun.
    - injection Hrun as <-. exact H0.
    - destruct (step ev w0) as [w1|] eqn:Hstep; [| discriminate].
      apply (IH w1 Hrun). eapply created_pending_step; eauto. }
  rewrite Forall_forall in Hinv. exact (Hinv cfg Hin).
Qed.

Lemma create_request_is_pending_witness :
  exists w cfg,
    run [User (TitleChange "x"); User TaskSubmit] (mount {["token" := "tok"]})
      = Some w
    /\ sent w !! 2%nat = Some cfg
    /\ is_create cfg = true
    /\ body_status cfg = Some "pending".
Proof.
  eexists. eexists. split; [vm_compute; reflexivity |].
  match goal with |- sent ?w !! _ = _ /\ _ => set (w0 := w) end.
  split; [vm_compute; reflexivity |].
  match goal with |- is_create ?cfg = _ /\ _ => set (cfg0 := cfg) end.
  assert (Hcreate : is_create cfg0 = true) by (vm_compute; reflexivity).
  split; [exact Hcreate |].
  apply (create_request_is_pending {["token" := "tok"]}
           [User (TitleChange "x"); User TaskSubmit] w0 cfg0).
  - vm_compute; reflexivity.
  - apply (list_elem_of_lookup_2 _ 2%nat). vm_compute; reflexivity.
  - exact Hcreate.
Defined.

(** *** Rejected requests *)

Ltac read_app :=
  cbn [AppState.userLoaded AppState.tasks AppState.filterQ
       AppState.filterStatus AppState.title AppState.description
       AppState.editingTask AppState.fieldErrors AppState.toast
       AppState.showDeleteModal AppState.deleteTaskId
       AppState.setUserLoaded AppState.setTasks AppState.setFilterQ
       AppState.setFilterStatus AppState.setTitle AppState.setDescription
       AppState.setEditingTask AppState.setFieldErrors AppState.setToast
       AppState.setShowDeleteModal AppState.setDeleteTaskId
       Toast.show Toast.msg Toast.variant].

(** What the list and the task form do on a 401: the session ends. *)
Lemma load_or_submit_401_ends_session i k err w w' :
  pending w !! i = Some k ->
  k = LoadTasksK \/ (exists c, k = HandleSubmitK c) ->
  status_is err 401 = true ->
  step (Settle i (Rejected err)) w = Some w' ->
  localStorage w' !! "token" = None
  /\ AppState.userLoaded (app w') = false.
Proof.
  intros Hk Hkind H401. cbn [step]. rewrite Hk.
  destruct Hkind as [-> | [c ->]]; cbn [resume].
  - unfold App.loadTasks_settled. rewrite H401.
    intros [= <-]. rewrite localStorage_commit, app_commit.
    read_world. read_app. split; [apply lookup_delete_eq | reflexivity].
  - unfold App.handleSubmit_settled, status_is in *.
    destruct (response err) as [res|]; [| discriminate].
    apply Nat.eqb_eq in H401. rewrite H401.
    change (401 =? 400)%nat with false. change (401 =? 401)%nat with true.
    intros [= <-]. rewrite localStorage_commit, app_commit.
    read_world. read_app. split; [apply lookup_delete_eq | reflexivity].
Qed.

(** C1 (what the code does where the claim fails): when the request of a
    status toggle or of a delete is rejected, with 401 or anything else, the
    stored token stays and the page stays on the authenticated view. *)
Theorem toggle_or_delete_rejection_keeps_session i c err w w' :
  pending w !! i = Some (ToggleStatusK c)
  \/ pending w !! i = Some (HandleDeleteConfirmK c) ->
  step (Settle i (Rejected err)) w = Some w' ->
  localStorage w' = localStorage w
  /\ AppState.userLoaded (app w') = AppState.userLoaded (app w).
Proof.
  intros Hk. cbn [step].
  destruct Hk as [-> | ->]; cbn [resume option_map fmap option_fmap];
    intros [= <-]; rewrite localStorage_commit, app_commit; split;
    reflexivity.
Qed.

Lemma toggle_or_delete_rejection_keeps_session_witness :
  exists w w',
    run (signed_in ++ [User (Toggle sample_task)])
      (mount {["token" := "tok"]}) = Some w
    /\ step (Settle 0 (Rejected unauthorized)) w = Some w'
    /\ (localStorage w' = localStorage w
        /\ AppState.userLoaded (app w') = AppState.userLoaded (app w)).
Proof.
  eexists. eexists.
  split; [vm_compute; reflexivity |]. split; [vm_compute; reflexivity |].
  eapply (toggle_or_delete_rejection_keeps_session 0 _ unauthorized);
    [left; vm_compute; reflexivity | vm_compute; reflexivity].
Defined.

(** The same run, read off: after the 401 the token is still stored, the
    task view is still shown, and the toast says the update failed. *)
Example unauthorized_toggle_keeps_token :
  match run (signed_in
             ++ [User (Toggle sample_task); Settle 0 (Rejected unauthorized)])
          (mount {["token" := "tok"]}) with
  | Some w =>
      localStorage w !! "token" = Some "tok"
      /\ AppState.userLoaded (app w) = true
      /\ Toast.msg (AppState.toast (app w)) = "Update failed"
  | None => False
  end.
Proof. vm_compute. auto. Qed.

Lemma console_commit prev w : console (commit prev w) = console w.
Proof. unfold_handlers. branches; reflexivity. Qed.

(** C3, as stated, fails for the task list: a 500 on the list request
    leaves the toast hidden. *)
Lemma load_failure_is_not_toasted :
  ~ (forall i k err w w',
        pending w !! i = Some k ->
        step (Settle i (Rejected err)) w = Some w' ->
        error_toast w').
Proof.
  intros H.
  assert (exists w',
             step (Settle 0 (Rejected server_error))
               (mount {["token" := "tok"]}) = Some w'
             /\ Toast.show (AppState.toast (app w')) = false)
    as (w' & Hstep & Hshow)
    by (eexists; split; vm_compute; reflexivity).
  assert (Hk : pending (mount {["token" := "tok"]}) !! 0 = Some LoadTasksK)
    by (vm_compute; reflexivity).
  destruct (H 0 LoadTasksK _ _ w' Hk Hstep) as [Hshow' _].
  congruence.
Qed.

(** C3 (amended): an error returned by login, signup, create, update,
    toggle or delete is shown as a toast; an error returned by the task-list
    load is written to the console, and shown as a toast only when its
    status is 401. *)
Theorem rejection_is_toasted i k err w w' :
  pending w !! i = Some k ->
  step (Settle i (Rejected err)) w = Some w' ->
  match k with
  | LoadTasksK =>
      console w' = console w ++ [err]
      /\ if status_is err 401 then error_toast w'
         else AppState.toast (app w') = AppState.toast (app w)
  | _ => error_toast w'
  end.
Proof.
  intros Hk. cbn [step]. rewrite Hk. unfold error_toast.
  destruct k; cbn [resume fmap option_fmap option_map];
    unfold App.loadTasks_settled, AuthForm.submit_settled,
      App.handleSubmit_settled, App.toggleStatus_settled,
      App.handleDeleteConfirm_settled;
    intros [= <-]; rewrite ?console_commit, ?app_commit.
  - destruct (status_is err 401); read_world; read_app; auto.
  - read_world; read_app; auto.
  - branches; read_world; read_app; auto.
  - read_world; read_app; auto.
  - read_world; read_app; auto.
Qed.

Lemma rejection_is_toasted_witness :
  exists w w',
    run (signed_in ++ [User (Toggle sample_task)])
      (mount {["token" := "tok"]}) = Some w
    /\ step (Settle 0 (Rejected server_error)) w = Some w'
    /\ error_toast w'.
Proof.
  eexists. eexists. split; [vm_compute; reflexivity |].
  match goal with |- step _ ?w = _ /\ _ => set (w0 := w) end.
  split; [vm_compute; reflexivity |].
  eapply (rejection_is_toasted 0 (ToggleStatusK _) server_error w0);
    vm_compute; reflexivity.
Defined.

(** *** Field errors of a rejected submission *)

Lemma foldl_assign_lookup (l : list FieldError.t) (o : gmap string JS.value)
  (k : string) :
  k <> "__proto__" ->
  foldl (fun o x => JS.assign o (FieldError.path x)
                      (JS.Str (FieldError.msg x))) o l !! k
  = match last (filter (fun x => FieldError.path x = k) l) with
    | Some x => Some (JS.Str (FieldError.msg x))
    | None => o !! k
    end.
Proof.
  intros Hk. revert o. induction l as [|x l IH]; intros o; [reflexivity |].
  cbn [foldl]. rewrite IH. rewrite filter_cons.
  destruct (decide (FieldError.path x = k)) as [Hx | Hx].
  - rewrite last_cons.
    destruct (last (filter _ l)); [reflexivity |].
    unfold JS.assign. rewrite Hx.
    destruct (decide (k = "__proto__")); [contradiction |].
    apply lookup_insert_eq.
  - destruct (last (filter _ l)); [reflexivity |].
    unfold JS.assign.
    destruct (decide (FieldError.path x = "__proto__")); [reflexivity |].
    apply lookup_insert_ne. exact Hx.
Qed.

Lemma newField_lookup (l : list FieldError.t) (k : string) :
  k <> "__proto__" ->
  App.newField l !! k
  = (fun x => JS.Str (FieldError.msg x))
      <$> last (filter (fun x => FieldError.path x = k) l).
Proof.
  intros Hk. unfold App.newField. rewrite foldl_assign_lookup by exact Hk.
  destruct (last _); reflexivity.
Qed.

Lemma authForm_commit prev w :
  AppState.userLoaded prev = AppState.userLoaded (app w) ->
  authForm (commit prev w) = authForm w.
Proof.
  intros H. unfold commit, App.listEffect. rewrite H, Bool.eqb_reflx.
  branches; reflexivity.
Qed.

(** C4, as stated, fails for the auth form: the server blames the e-mail
    field, and the e-mail field keeps the (empty) result of the client-side
    validation. *)
Lemma auth_400_is_not_mapped_to_its_field :
  ~ (forall i c err res l x w w',
        pending w !! i = Some (AuthSubmitK c) ->
        response err = Some res ->
        Response.status res = 400 ->
        Response.errors (Response.data res) = Some l ->
        x ∈ l ->
        step (Settle i (Rejected err)) w = Some w' ->
        AuthFormState.fieldErrors (authForm w') !! FieldError.path x
        = Some (FieldError.msg x)).
Proof.
  intros H.
  assert (exists w w',
             run (credentials_typed ++ [User AuthSubmit]) (mount ∅) = Some w
             /\ pending w !! 0 = Some (AuthSubmitK AppState.initial)
             /\ step (Settle 0 (Rejected email_taken)) w = Some w'
             /\ AuthFormState.fieldErrors (authForm w') !! "email" = Some "")
    as (w & w' & _ & Hk & Hstep & Hshown).
  { eexists. eexists. split; [vm_compute; reflexivity |].
    split; [vm_compute; reflexivity |].
    split; vm_compute; reflexivity. }
  specialize (H 0 _ email_taken _ _
                {| FieldError.path := "email";
                   FieldError.msg := "Email already in use" |}
                w w' Hk eq_refl eq_refl eq_refl).
  cbn [FieldError.path FieldError.msg] in H.
  rewrite H in Hshown; [discriminate | | exact Hstep].
  apply list_elem_of_singleton. reflexivity.
Qed.

(** C4 (amended): on a 400 response to a task create or update, every form
    field (every key but [__proto__]) shows the message of the last error of
    the [errors] array whose [path] names it, and no message when no error
    names it.  On a 400 response to an auth submission the errors are not
    mapped to their fields: the message of the first error, when it is not
    empty, is put under the key [form] and every other key of the form's
    errors stays as it was. *)
Theorem field_errors_of_a_400 i k err res l w w' :
  pending w !! i = Some k ->
  response err = Some res ->
  Response.status res = 400 ->
  Response.errors (Response.data res) = Some l ->
  step (Settle i (Rejected err)) w = Some w' ->
  match k with
  | HandleSubmitK _ =>
      forall key, key <> "__proto__" ->
        AppState.fieldErrors (app w') !! key
        = (fun x => JS.Str (FieldError.msg x))
            <$> last (filter (fun x => FieldError.path x = key) l)
  | AuthSubmitK _ =>
      (forall x l', l = x :: l' -> FieldError.msg x <> "" ->
         AuthFormState.fieldErrors (authForm w') !! "form"
         = Some (FieldError.msg x))
      /\ (forall key, key <> "form" ->
            AuthFormState.fieldErrors (authForm w') !! key
            = AuthFormState.fieldErrors (authForm w) !! key)
  | _ => True
  end.
Proof.
  intros Hk Hres Hstatus Herrors. cbn [step]. rewrite Hk.
  destruct k; try exact (fun _ => I);
    cbn [resume fmap option_fmap option_map].
  - unfold AuthForm.submit_settled. intros [= <-].
    rewrite authForm_commit by reflexivity.
    read_world. cbn [AuthFormState.fieldErrors AuthFormState.setFieldErrors
                     AuthFormState.setLoading]. split.
    + intros x l' -> Hmsg. rewrite lookup_insert_eq. f_equal.
      unfold AuthForm.failure_msg, AuthForm.first_error_msg.
      rewrite Hres, Herrors. cbn [JS.or_else].
      apply truthy_true in Hmsg. rewrite Hmsg, Hmsg. reflexivity.
    + intros key Hkey. apply lookup_insert_ne. congruence.
  - unfold App.handleSubmit_settled. rewrite Hres, Hstatus, Herrors.
    change (400 =? 400)%nat with true. cbv iota.
    intros [= <-]. rewrite app_commit. read_world. read_app.
    intros key Hkey. apply newField_lookup. exact Hkey.
Qed.

Lemma field_errors_of_a_400_witness :
  exists w w',
    run [User (TitleChange "x"); User TaskSubmit] (mount {["token" := "tok"]})
      = Some w
    /\ step (Settle 2 (Rejected title_too_short)) w = Some w'
    /\ AppState.fieldErrors (app w') !! "title" = Some (JS.Str "Too short").
Proof.
  eexists. eexists. split; [vm_compute; reflexivity |].
  match goal with |- step _ ?w = _ /\ _ => set (w0 := w) end.
  split; [vm_compute; reflexivity |].
  match goal with |- AppState.fieldErrors (app ?w') !! _ = _ =>
    set (w1 := w')
  end.
  assert (Hall : forall key, key <> "__proto__" ->
            AppState.fieldErrors (app w1) !! key
            = (fun x => JS.Str (FieldError.msg x))
                <$> last (filter (fun x => FieldError.path x = key)
                            [{| FieldError.path := "title";
                                FieldError.msg := "Too short" |}])).
  { eapply (field_errors_of_a_400 2 (HandleSubmitK _) title_too_short _ _
              w0 w1);
      [vm_compute; reflexivity | reflexivity | reflexivity | reflexivity
      | vm_compute; reflexivity]. }
  exact (Hall "title" ltac:(discriminate)).
Defined.

(** *** Requests in flight *)

Lemma deps_changed_false prev cur :
  AppState.filterQ prev = AppState.filterQ cur ->
  AppState.filterStatus prev = AppState.filterStatus cur ->
  AppState.userLoaded prev = AppState.userLoaded cur ->
  App.deps_changed prev cur = false.
Proof.
  intros Hq Hs Hu. unfold App.deps_changed.
  rewrite Hq, Hs, Hu, !String.eqb_refl, Bool.eqb_reflx. reflexivity.
Qed.

(** The list effect issues a request exactly when a dependency changed and
    the task view is shown. *)
Lemma pending_commit prev w :
  pending (commit prev w)
  = pending w
    ++ (if App.deps_changed prev (app w) && AppState.userLoaded (app w)
        then [LoadTasksK] else []).
Proof.
  unfold commit, App.listEffect.
  destruct (Bool.eqb _ _); read_world;
    destruct (App.deps_changed prev (app w));
    destruct (AppState.userLoaded (app w)); read_world;
    rewrite ?app_nil_r; reflexivity.
Qed.















(** Requests of different actions are not coordinated: a search while the
    two list requests of the page load are in flight makes three. *)
Example search_during_page_load :
  option_map in_flight (run [User Search] (mount {["token" := "tok"]}))
  = Some 3%nat.
Proof. vm_compute. reflexivity. Qed.



(** * Further properties of the code *)

(** ** Validation messages *)

Section ValidationMessages.

Import Regex AuthForm.

Lemma not_space_at_true x :
  not_space_at x = true -> x <> "@"%char /\ space x = false.
Proof.
  unfold not_space_at. rewrite negb_true_iff, orb_false_iff.
  intros [Hs Hat]. split; [| exact Hs].
  intros ->. vm_compute in Hat. discriminate.
Qed.

Lemma filter_at_none (s : list ascii) :
  Forall (fun x => not_space_at x = true) s ->
  filter (fun x => x = "@"%char) s = [].
Proof.
  induction 1 as [|x s Hx _ IH]; [reflexivity |].
  rewrite filter_cons, IH.
  destruct (decide (x = "@"%char)) as [-> | _]; [| reflexivity].
  vm_compute in Hx. discriminate.
Qed.

(** X1: an accepted e-mail has exactly one [@], no white space, and a dot
    somewhere after the [@]. *)
Theorem accepted_email_has_one_at (value : string) :
  validateEmail value = "" ->
  List.length (filter (fun x => x = "@"%char) (list_ascii_of_string value))
  = 1%nat
  /\ Forall (fun x => space x = false) (list_ascii_of_string value)
  /\ exists a t,
       list_ascii_of_string value = a ++ "@"%char :: t /\ "."%char ∈ t.
Proof.
  intros H. apply validateEmail_accepts in H.
  destruct H as (a & b & c & -> & _ & _ & _ & Hall).
  apply Forall_app in Hall as [Ha Hall].
  apply Forall_app in Hall as [Hb Hc].
  split; [| split].
  - rewrite filter_app, filter_cons, filter_app, filter_cons.
    rewrite !filter_at_none by assumption.
    destruct (decide ("@"%char = "@"%char)); [| congruence].
    destruct (decide ("."%char = "@"%char)); [discriminate | reflexivity].
  - assert (Hspace : forall s, Forall (fun x => not_space_at x = true) s ->
                               Forall (fun x => space x = false) s).
    { intros s Hs. eapply Forall_impl; [exact Hs |].
      intros x Hx. apply not_space_at_true in Hx. tauto. }
    apply Forall_app; split; [auto |]. constructor; [reflexivity |].
    apply Forall_app; split; [auto |]. constructor; [reflexivity | auto].
  - exists a, (b ++ "."%char :: c). split; [reflexivity |].
    apply elem_of_app. right. constructor.
Qed.

Lemma accepted_email_has_one_at_witness :
  List.length (filter (fun x => x = "@"%char) (list_ascii_of_string "a@b.c"))
  = 1%nat.
Proof.
  apply (accepted_email_has_one_at "a@b.c"). vm_compute. reflexivity.
Defined.

(** X2: the message of [validateEmail] tells the two failures apart: it is
    ['Email is required'] exactly for the empty string and ['Invalid email']
    exactly for a non-empty string that is not of the e-mail shape. *)
Theorem validateEmail_messages (value : string) :
  (validateEmail value = "Email is required" <-> value = "")
  /\ (validateEmail value = "Invalid email" <->
      value <> "" /\ ~ email_shape (list_ascii_of_string value)).
Proof.
  pose proof (validateEmail_accepts value) as Hok.
  unfold validateEmail in *.
  destruct value as [|x value]; cbn [JS.truthy negb] in *.
  - split; split; try discriminate; auto. intros [H _]. congruence.
  - destruct (test emailRegex (String x value)); cbn [negb] in *.
    + split; split; try discriminate.
      intros [_ H]. exfalso. apply H, Hok. reflexivity.
    + split; split; try discriminate; auto.
      intros _. split; [discriminate |]. intros H. apply Hok in H.
      discriminate.
Qed.

Lemma contains_test p v :
  test {| from_start := false; body := Class p; to_end := false |} v = true
  <-> contains p v.
Proof. apply test_class. Qed.

(** X3: in sign-up mode [validatePassword] reports the first rule that
    fails, in the order length, upper case, lower case, digit, special
    character; each message names exactly one situation. *)
Theorem validatePassword_signup_messages (value : string) :
  let long := (8 <= String.length value)%nat in
  let upper := contains (between "A" "Z") value in
  let lower := contains (between "a" "z") value in
  let number := contains digit value in
  (validatePassword false value = "Password is required" <-> value = "")
  /\ (validatePassword false value = "Password must be at least 8 characters"
      <-> value <> "" /\ ~ long)
  /\ (validatePassword false value = "Must contain an uppercase letter"
      <-> long /\ ~ upper)
  /\ (validatePassword false value = "Must contain a lowercase letter"
      <-> long /\ upper /\ ~ lower)
  /\ (validatePassword false value = "Must contain a number"
      <-> long /\ upper /\ lower /\ ~ number)
  /\ (validatePassword false value
      = "Must contain a special character @$!%*?&"
      <-> long /\ upper /\ lower /\ number
          /\ ~ contains (one_of specials) value).
Proof.
  intros long upper lower number. subst long upper lower number.
  rewrite <- !contains_test.
  fold upperRegex lowerRegex digitRegex specialRegex.
  unfold validatePassword.
  destruct value as [|x value]; cbn [JS.truthy negb].
  { cbn [String.length]. repeat split; intros; try discriminate;
      try lia; try tauto. }
  destruct (Nat.ltb_spec (String.length (String x value)) 8) as [Hlt | Hge].
  { repeat split; intros; try discriminate; try lia; tauto. }
  destruct (test upperRegex _); cbn [negb];
    [| repeat split; intros; try discriminate; try lia;
       intuition discriminate].
  destruct (test lowerRegex _); cbn [negb];
    [| repeat split; intros; try discriminate; try lia;
       intuition discriminate].
  destruct (test digitRegex _); cbn [negb];
    [| repeat split; intros; try discriminate; try lia;
       intuition discriminate].
  destruct (test specialRegex _); cbn [negb];
    repeat split; intros; try discriminate; try lia; intuition discriminate.
Qed.

(** X4: the message shown for a failed auth request is never empty: it is
    the message of the first server error when that is not empty, else the
    [message] of the body when that is not empty, else ['Auth failed']. *)
Theorem failure_msg_never_empty (err : error) :
  failure_msg err <> ""
  /\ (forall s, first_error_msg err = Some s -> s <> "" ->
        failure_msg err = s)
  /\ (first_error_msg err = None \/ first_error_msg err = Some "" ->
      forall s, response_message err = Some s -> s <> "" ->
        failure_msg err = s)
  /\ (first_error_msg err = None \/ first_error_msg err = Some "" ->
      response_message err = None \/ response_message err = Some "" ->
      failure_msg err = "Auth failed").
Proof.
  unfold failure_msg, JS.or_else.
  destruct (first_error_msg err) as [[|x s]|];
    destruct (response_message err) as [[|y t]|]; cbn [JS.truthy];
    repeat split; try discriminate;
    try (intros ? [= <-] ?; congruence);
    try (intros [? | ?] ? [= <-] ?; congruence);
    try (intros [? | ?] [? | ?]; congruence).
Qed.

End ValidationMessages.

(** ** The session *)

Lemma userLoaded_handle a w :
  AppState.userLoaded (app (handle a w))
  = match a with
    | Logout => false
    | _ => AppState.userLoaded (app w)
    end.
Proof.
  destruct a; unfold handle, AuthForm.handleEmailChange,
    AuthForm.handlePasswordChange, AuthForm.switchMode, AuthForm.submit,
    App.titleChange, App.descriptionChange, App.handleSubmit, App.cancelEdit,
    App.toggleStatus, App.handleEdit, App.confirmDelete,
    App.handleDeleteConfirm, App.hideModal, App.logout, App.closeToast;
    branches; reflexivity.
Qed.

Lemma userLoaded_resume k r w w' :
  resume k r w = Some w' ->
  AppState.userLoaded (app w')
  = match stores_token k r with
    | Some _ => true
    | None =>
        if clears_token k r then false else AppState.userLoaded (app w)
    end.
Proof.
  unfold clears_token, stores_token, status_is.
  destruct k, r as [[l|token|]|err]; cbn [resume];
    unfold App.loadTasks_settled, AuthForm.submit_settled,
      App.handleSubmit_settled, App.toggleStatus_settled,
      App.handleDeleteConfirm_settled, status_is;
    try discriminate; intros [= <-]; branches; try reflexivity;
    exfalso; eauto using status_400_401.
Qed.

Lemma session_consistent_step ev w w' :
  step ev w = Some w' -> session_consistent w -> session_consistent w'.
Proof.
  unfold session_consistent. intros Hstep [Hshown Hstored].
  destruct ev as [a | i r]; cbn [step] in Hstep.
  - injection Hstep as <-.
    rewrite app_commit, localStorage_commit, userLoaded_handle,
      localStorage_handle.
    destruct a; auto. split; [discriminate |].
    intros token. rewrite lookup_delete_eq. discriminate.
  - destruct (pending w !! i) as [k|]; [| discriminate].
    destruct (resume k r _) as [w1|] eqn:Hr; [| discriminate].
    injection Hstep as <-. rewrite app_commit, localStorage_commit.
    rewrite (userLoaded_resume _ _ _ _ Hr), (localStorage_resume _ _ _ _ Hr).
    read_world.
    destruct (stores_token k r) as [token|].
    + split; [intros _; rewrite lookup_insert_eq; eauto | reflexivity].
    + destruct (clears_token k r); auto. split; [discriminate |].
      intros token. rewrite lookup_delete_eq. discriminate.
Qed.

Lemma session_consistent_mount storage : session_consistent (mount storage).
Proof.
  unfold session_consistent.
  rewrite localStorage_mount. unfold mount. rewrite app_commit.
  destruct (storage !! "token") as [token|] eqn:Hs.
  - destruct (JS.truthy token) eqn:Ht; read_world; read_app.
    + split; [eauto | reflexivity].
    + apply truthy_false in Ht. split; [discriminate |].
      intros token' [= <-]. congruence.
  - read_world; read_app. split; discriminate.
Qed.

(** X5: on every run of the page, the task screen is shown only while a
    token is stored, and a non-empty stored token means the task screen is
    shown. *)
Theorem screen_agrees_with_token
  (storage : gmap string string) (evs : list event) (w : World) :
  run evs (mount storage) = Some w ->
  (View.screen_of (app w) = View.TaskScreen ->
   is_Some (localStorage w !! "token"))
  /\ (forall token,
         localStorage w !! "token" = Some token -> token <> "" ->
         View.screen_of (app w) = View.TaskScreen).
Proof.
  intros Hrun.
  assert (Hinv : session_consistent w).
  { pose proof (session_consistent_mount storage) as H0.
    revert Hrun H0. generalize (mount storage) as w0.
    induction evs as [|ev evs IH]; intros w0 Hrun H0; cbn [run] in Hrun.
    - injection Hrun as <-. exact H0.
    - destruct (step ev w0) as [w1|] eqn:Hstep; [| discriminate].
      apply (IH w1 Hrun). eapply session_consistent_step; eauto. }
  destruct Hinv as [Hshown Hstored]. unfold View.screen_of. split.
  - destruct (AppState.userLoaded (app w)); [auto | discriminate].
  - intros token Ht Hne. rewrite (Hstored token Ht Hne). reflexivity.
Qed.

Lemma screen_agrees_with_token_witness :
  exists w,
    run (credentials_typed
         ++ [User AuthSubmit; Settle 0 (Fulfilled (AuthData "tok"))])
      (mount ∅) = Some w
    /\ View.screen_of (app w) = View.TaskScreen.
Proof.
  eexists. split; [vm_compute; reflexivity |].
  match goal with |- View.screen_of (app ?w) = _ => set (w0 := w) end.
  assert (Hrun : run (credentials_typed
                      ++ [User AuthSubmit;
                          Settle 0 (Fulfilled (AuthData "tok"))])
                   (mount ∅) = Some w0) by (vm_compute; reflexivity).
  apply (proj2 (screen_agrees_with_token ∅ _ w0 Hrun) "tok").
  - vm_compute; reflexivity.
  - discriminate.
Defined.

(** The request of the list effect, when it runs. *)
Lemma sent_commit prev w :
  sent (commit prev w)
  = sent w
    ++ (if App.deps_changed prev (app w) && AppState.userLoaded (app w)
        then [Api.interceptor (localStorage w)
                (Api.get "/tasks" (App.params (app w)))]
        else []).
Proof.
  unfold commit, App.listEffect.
  destruct (Bool.eqb _ _); read_world;
    destruct (App.deps_changed prev (app w));
    destruct (AppState.userLoaded (app w)); read_world;
    rewrite ?app_nil_r; reflexivity.
Qed.

(** X6: opening the page with no token, or an empty one, shows the auth
    screen and sends nothing; opening it with a non-empty token shows the
    task screen and sends the list request twice, both with the token. *)
Theorem mount_reads_token (storage : gmap string string) :
  (storage !! "token" = None \/ storage !! "token" = Some "" ->
   View.screen_of (app (mount storage)) = View.AuthScreen
   /\ sent (mount storage) = []
   /\ in_flight (mount storage) = 0%nat)
  /\ (forall token,
         storage !! "token" = Some token -> token <> "" ->
         View.screen_of (app (mount storage)) = View.TaskScreen
         /\ sent (mount storage)
            = [Api.set_header "Authorization" ("Bearer " +:+ token)
                 (Api.get "/tasks" ∅);
               Api.set_header "Authorization" ("Bearer " +:+ token)
                 (Api.get "/tasks" ∅)]
         /\ in_flight (mount storage) = 2%nat).
Proof.
  unfold mount, View.screen_of, in_flight. split.
  - intros [H | H]; rewrite H; cbn [JS.truthy];
      rewrite commit_same_app by reflexivity; auto.
  - intros token H Hne. rewrite H.
    apply truthy_true in Hne. rewrite Hne.
    rewrite app_commit, sent_commit, pending_commit.
    read_world. read_app.
    change (App.deps_changed AppState.initial
              (AppState.setUserLoaded true AppState.initial)) with true.
    change (App.params (AppState.setUserLoaded true AppState.initial))
      with (∅ : gmap string string).
    change (App.params AppState.initial) with (∅ : gmap string string).
    cbn [andb app List.length].
    unfold Api.interceptor. rewrite H, Hne. auto.
Qed.

(** ** What the client sends *)

(** X7: the interceptor changes nothing of a request but its
    [Authorization] header. *)
Theorem interceptor_touches_only_authorization
  (ls : gmap string string) (cfg : Api.config) :
  Api.baseURL (Api.interceptor ls cfg) = Api.baseURL cfg
  /\ Api.method (Api.interceptor ls cfg) = Api.method cfg
  /\ Api.url (Api.interceptor ls cfg) = Api.url cfg
  /\ Api.params (Api.interceptor ls cfg) = Api.params cfg
  /\ Api.data (Api.interceptor ls cfg) = Api.data cfg
  /\ forall name, name <> "Authorization" ->
       Api.headers (Api.interceptor ls cfg) !! name = Api.headers cfg !! name.
Proof.
  unfold Api.interceptor.
  destruct (ls !! "token") as [token|]; [destruct (JS.truthy token) |];
    repeat split; auto.
  intros name Hname. cbn. apply lookup_insert_ne. congruence.
Qed.

Lemma endpoint_interceptor ls cfg :
  endpoint cfg -> endpoint (Api.interceptor ls cfg).
Proof.
  unfold endpoint.
  destruct (interceptor_touches_only_authorization ls cfg)
    as (-> & -> & -> & _ & -> & _).
  auto.
Qed.

Ltac endpoints_ok :=
  read_world;
  rewrite ?Forall_app, ?Forall_singleton;
  repeat split; auto;
  try (apply endpoint_interceptor; unfold endpoint; cbn;
       solve [auto | eauto]).

Lemma endpoint_step ev w w' :
  step ev w = Some w' ->
  Forall endpoint (sent w) -> Forall endpoint (sent w').
Proof.
  intros Hstep Hinv. destruct ev as [a | i r]; cbn [step] in Hstep.
  - injection Hstep as <-.
    destruct a; unfold_handlers; branches; endpoints_ok.
  - destruct (pending w !! i) as [k|]; [| discriminate].
    destruct (resume k r _) as [w1|] eqn:Hr; [| discriminate].
    injection Hstep as <-. revert Hr.
    destruct k, r as [[l|token|]|err]; unfold_handlers;
      try discriminate; intros [= <-]; branches; endpoints_ok.
Qed.

Lemma endpoint_mount storage : Forall endpoint (sent (mount storage)).
Proof.
  unfold mount. unfold_handlers. branches; endpoints_ok; constructor.
Qed.

(** X8: whatever the user does and the server answers, the client only
    ever sends, to the fixed base URL: the credentials by [POST] to
    [/auth/login] or [/auth/signup]; [GET /tasks] without a body;
    [POST /tasks] with a pending task; [PUT /tasks/<id>] with task fields or
    with the task itself under its own id; [DELETE /tasks/<id>] without a
    body. *)
Theorem only_known_endpoints
  (storage : gmap string string) (evs : list event) (w : World)
  (cfg : Api.config) :
  run evs (mount storage) = Some w ->
  cfg ∈ sent w ->
  endpoint cfg.
Proof.
  intros Hrun Hin.
  assert (Hinv : Forall endpoint (sent w)).
  { pose proof (endpoint_mount storage) as H0.
    revert Hrun H0. generalize (mount storage) as w0.
    induction evs as [|ev evs IH]; intros w0 Hrun H0; cbn [run] in Hrun.
    - injection Hrun as <-. exact H0.
    - destruct (step ev w0) as [w1|] eqn:Hstep; [| discriminate].
      apply (IH w1 Hrun). eapply endpoint_step; eauto. }
  rewrite Forall_forall in Hinv. exact (Hinv cfg Hin).
Qed.

Lemma only_known_endpoints_witness :
  exists w cfg,
    run (credentials_typed ++ [User AuthSubmit]) (mount ∅) = Some w
    /\ sent w !! 0%nat = Some cfg
    /\ endpoint cfg.
Proof.
  eexists. eexists. split; [vm_compute; reflexivity |].
  match goal with |- sent ?w !! _ = _ /\ _ => set (w0 := w) end.
  split; [vm_compute; reflexivity |].
  match goal with |- endpoint ?cfg => set (cfg0 := cfg) end.
  apply (only_known_endpoints ∅ (credentials_typed ++ [User AuthSubmit])
           w0 cfg0).
  - vm_compute; reflexivity.
  - apply (list_elem_of_lookup_2 _ 0%nat). vm_compute; reflexivity.
Defined.

Lemma params_lookup (c : AppState.t) (k : string) :
  App.params c !! k
  = if decide (k = "q")
    then (if JS.truthy (AppState.filterQ c)
          then Some (AppState.filterQ c) else None)
    else if decide (k = "status")
    then (if JS.truthy (AppState.filterStatus c)
          then Some (AppState.filterStatus c) else None)
    else None.
Proof.
  unfold App.params.
  destruct (decide (k = "q")) as [-> | Hq].
  - destruct (JS.truthy (AppState.filterQ c)).
    + apply lookup_insert_eq.
    + destruct (JS.truthy (AppState.filterStatus c)).
      * rewrite lookup_insert_ne by discriminate. apply lookup_empty.
      * apply lookup_empty.
  - destruct (JS.truthy (AppState.filterQ c));
      rewrite ?(lookup_insert_ne _ "q" k) by congruence;
      (destruct (decide (k = "status")) as [-> | Hs];
       destruct (JS.truthy (AppState.filterStatus c));
       rewrite ?lookup_insert_eq, ?lookup_insert_ne, ?lookup_empty
         by congruence; reflexivity).
Qed.

(** X9: the query of the list request carries a filter exactly when that
    filter is not the empty string, and never anything else. *)
Theorem params_carry_non_empty_filters (c : AppState.t) (k v : string) :
  App.params c !! k = Some v <->
  (k = "status" /\ v = AppState.filterStatus c /\ v <> "")
  \/ (k = "q" /\ v = AppState.filterQ c /\ v <> "").
Proof.
  rewrite params_lookup.
  destruct (decide (k = "q")) as [-> | Hq];
    [| destruct (decide (k = "status")) as [-> | Hs]].
  - destruct (JS.truthy (AppState.filterQ c)) eqn:Ht;
      rewrite ?truthy_true, ?truthy_false in Ht; split.
    + intros [= <-]. auto.
    + intros [(? & _) | (_ & -> & _)]; [discriminate | reflexivity].
    + discriminate.
    + intros [(? & _) | (_ & -> & ?)]; [discriminate | congruence].
  - destruct (JS.truthy (AppState.filterStatus c)) eqn:Ht;
      rewrite ?truthy_true, ?truthy_false in Ht; split.
    + intros [= <-]. auto.
    + intros [(_ & -> & _) | (? & _)]; [reflexivity | discriminate].
    + discriminate.
    + intros [(_ & -> & ?) | (? & _)]; [congruence | discriminate].
  - split; [discriminate |]. intros [(? & _) | (? & _)]; congruence.
Qed.

Lemma sent_by_app w w' l : sent w' = sent w ++ l -> sent_by w w' = l.
Proof. unfold sent_by. intros ->. apply drop_app_length. Qed.

Lemma interceptor_bearer ls token cfg :
  token <> "" ->
  Api.headers cfg !! "Authorization" = None ->
  Api.headers (Api.interceptor (<["token" := token]> ls) cfg)
    !! "Authorization" = Some ("Bearer " +:+ token).
Proof.
  intros Hne Hcfg. rewrite interceptor_header by exact Hcfg.
  rewrite lookup_insert_eq. apply truthy_true in Hne. rewrite Hne.
  reflexivity.
Qed.

(** X10: when an auth submit succeeds with a non-empty token, the task
    screen is shown and every request the turn sends is a list request that
    already carries the token just received. *)
Theorem login_requests_carry_new_token i c token w w' :
  pending w !! i = Some (AuthSubmitK c) ->
  token <> "" ->
  step (Settle i (Fulfilled (AuthData token))) w = Some w' ->
  View.screen_of (app w') = View.TaskScreen
  /\ sent_by w w' <> []
  /\ Forall (fun cfg =>
               Api.method cfg = Api.GET /\ Api.url cfg = "/tasks"
               /\ Api.headers cfg !! "Authorization"
                  = Some ("Bearer " +:+ token))
       (sent_by w w').
Proof.
  intros Hk Hne. cbn [step]. rewrite Hk.
  cbn [resume fmap option_fmap option_map].
  unfold AuthForm.submit_settled. intros [= <-].
  assert (Hreq : forall p,
             Api.method (Api.interceptor
                           (<["token" := token]> (localStorage w))
                           (Api.get "/tasks" p)) = Api.GET
             /\ Api.url (Api.interceptor
                           (<["token" := token]> (localStorage w))
                           (Api.get "/tasks" p)) = "/tasks"
             /\ Api.headers (Api.interceptor
                               (<["token" := token]> (localStorage w))
                               (Api.get "/tasks" p)) !! "Authorization"
                = Some ("Bearer " +:+ token)).
  { intros p.
    destruct (interceptor_keeps (<["token" := token]> (localStorage w))
                (Api.get "/tasks" p)) as (-> & -> & _).
    repeat split. apply interceptor_bearer; [exact Hne | reflexivity]. }
  split; [rewrite app_commit; reflexivity |].
  erewrite sent_by_app.
  2:{ rewrite sent_commit. read_world. rewrite <- app_assoc. reflexivity. }
  split; [discriminate |].
  apply Forall_app. split; [repeat constructor; apply Hreq |].
  destruct (_ && _); repeat constructor; apply Hreq.
Qed.

Lemma login_requests_carry_new_token_witness :
  exists w w',
    run (credentials_typed ++ [User AuthSubmit]) (mount ∅) = Some w
    /\ step (Settle 0 (Fulfilled (AuthData "tok"))) w = Some w'
    /\ View.screen_of (app w') = View.TaskScreen.
Proof.
  eexists. eexists. split; [vm_compute; reflexivity |].
  match goal with |- step _ ?w = _ /\ _ => set (w0 := w) end.
  split; [vm_compute; reflexivity |].
  eapply (login_requests_carry_new_token 0 _ "tok" w0);
    [vm_compute; reflexivity | discriminate | vm_compute; reflexivity].
Defined.

(** X11: changing the search text or the status filter on the task screen
    sends one list request, built from the new filters; typing the value
    already there, or changing a filter while signed out, sends nothing. *)
Theorem filter_change_reloads (a : action) (w w' : World) :
  step (User a) w = Some w' ->
  match a with
  | FilterQChange v =>
      AppState.filterQ (app w') = v
      /\ sent_by w w'
         = if AppState.userLoaded (app w)
              && negb (String.eqb (AppState.filterQ (app w)) v)
           then [Api.interceptor (localStorage w)
                   (Api.get "/tasks" (App.params (app w')))]
           else []
  | FilterStatusChange v =>
      AppState.filterStatus (app w') = v
      /\ sent_by w w'
         = if AppState.userLoaded (app w)
              && negb (String.eqb (AppState.filterStatus (app w)) v)
           then [Api.interceptor (localStorage w)
                   (Api.get "/tasks" (App.params (app w')))]
           else []
  | _ => True
  end.
Proof.
  cbn [step]. intros [= <-].
  destruct a; try exact I; cbn [handle]; rewrite app_commit;
    (split; [reflexivity |]); apply sent_by_app; rewrite sent_commit;
    read_world; unfold App.deps_changed; read_app;
    rewrite ?String.eqb_refl, ?Bool.eqb_reflx, ?andb_true_r, ?andb_true_l;
    rewrite (andb_comm (negb _)); reflexivity.
Qed.

Lemma filter_change_reloads_witness :
  exists w w',
    run signed_in (mount {["token" := "tok"]}) = Some w
    /\ step (User (FilterQChange "milk")) w = Some w'
    /\ AppState.filterQ (app w') = "milk".
Proof.
  eexists. eexists. split; [vm_compute; reflexivity |].
  match goal with |- step _ ?w = _ /\ _ => set (w0 := w) end.
  split; [vm_compute; reflexivity |].
  match goal with |- AppState.filterQ (app ?w') = _ => set (w1 := w') end.
  assert (Hstep : step (User (FilterQChange "milk")) w0 = Some w1)
    by (vm_compute; reflexivity).
  exact (proj1 (filter_change_reloads (FilterQChange "milk") w0 w1 Hstep)).
Defined.

(** ** The task screen *)

(** X12: however the delete request ends, the modal is closed and the id to
    delete forgotten; the toast tells which way it went, and a list reload
    follows a success only. *)
Theorem delete_always_closes_the_modal i c r w w' :
  pending w !! i = Some (HandleDeleteConfirmK c) ->
  step (Settle i r) w = Some w' ->
  AppState.showDeleteModal (app w') = false
  /\ AppState.deleteTaskId (app w') = None
  /\ Toast.show (AppState.toast (app w')) = true
  /\ match r with
     | Fulfilled _ =>
         Toast.msg (AppState.toast (app w')) = "Task deleted"
         /\ sent_by w w'
            = [Api.interceptor (localStorage w)
                 (Api.get "/tasks" (App.params c))]
     | Rejected _ =>
         Toast.msg (AppState.toast (app w')) = "Delete failed"
         /\ sent_by w w' = []
     end.
Proof.
  intros Hk. cbn [step]. rewrite Hk.
  cbn [resume fmap option_fmap option_map].
  unfold App.handleDeleteConfirm_settled. intros [= <-].
  rewrite app_commit.
  destruct r as [d|err]; read_world; read_app; repeat split;
    apply sent_by_app; rewrite sent_commit; read_world; read_app;
    rewrite deps_changed_false by reflexivity; cbn [andb];
    rewrite app_nil_r; reflexivity.
Qed.

Lemma delete_always_closes_the_modal_witness :
  exists w w',
    run (signed_in ++ [User (ConfirmDelete "t1"); User DeleteConfirm])
      (mount {["token" := "tok"]}) = Some w
    /\ step (Settle 0 (Rejected server_error)) w = Some w'
    /\ AppState.showDeleteModal (app w') = false.
Proof.
  eexists. eexists. split; [vm_compute; reflexivity |].
  match goal with |- step _ ?w = _ /\ _ => set (w0 := w) end.
  split; [vm_compute; reflexivity |].
  eapply (delete_always_closes_the_modal 0 _ (Rejected server_error) w0);
    vm_compute; reflexivity.
Defined.

(** A turn that leaves the dependencies of the list effect alone runs no
    effect. *)
Lemma commit_same_deps prev w :
  AppState.filterQ prev = AppState.filterQ (app w) ->
  AppState.filterStatus prev = AppState.filterStatus (app w) ->
  AppState.userLoaded prev = AppState.userLoaded (app w) ->
  commit prev w = w.
Proof.
  intros Hq Hs Hu. unfold commit, App.listEffect.
  rewrite Hu, Bool.eqb_reflx, deps_changed_false by congruence.
  reflexivity.
Qed.

(** X13: confirming the deletion of a task and pressing Delete sends
    exactly one request, [DELETE /tasks/<id>] for that id, and the modal
    stays open until the request ends. *)
Theorem confirmed_delete_targets_the_task (id : string) (w w' : World) :
  run [User (ConfirmDelete id); User DeleteConfirm] w = Some w' ->
  sent_by w w'
  = [Api.interceptor (localStorage w) (Api.delete ("/tasks/" +:+ id))]
  /\ AppState.showDeleteModal (app w') = true
  /\ pending w' = pending w ++ [HandleDeleteConfirmK (app w')].
Proof.
  cbn [run step handle]. intros [= <-].
  rewrite (commit_same_deps (app w)) by reflexivity.
  rewrite commit_same_app by reflexivity.
  unfold App.confirmDelete, App.handleDeleteConfirm.
  read_world. read_app. split; [| split; reflexivity].
  apply sent_by_app. reflexivity.
Qed.

Lemma confirmed_delete_targets_the_task_witness :
  exists w',
    run [User (ConfirmDelete "t1"); User DeleteConfirm] (mount ∅) = Some w'
    /\ AppState.showDeleteModal (app w') = true.
Proof.
  eexists. split; [vm_compute; reflexivity |].
  eapply (confirmed_delete_targets_the_task "t1" (mount ∅)).
  vm_compute; reflexivity.
Defined.

(** X14: pressing Edit on a task and submitting the form untouched sends
    the task's own title, description and status back to [/tasks/<id>]:
    editing never changes the status. *)
Theorem edit_then_submit_resends_the_task (task : Task.t) (w w' : World) :
  run [User (Edit task); User TaskSubmit] w = Some w' ->
  sent_by w w'
  = [Api.interceptor (localStorage w)
       (Api.put ("/tasks/" +:+ Task._id task)
          (Api.TaskFields (Task.title task) (Task.description task)
             (Task.status task)))].
Proof.
  cbn [run step handle]. intros [= <-].
  rewrite (commit_same_deps (app w)) by reflexivity.
  rewrite commit_same_deps by reflexivity.
  unfold App.handleEdit, App.handleSubmit.
  read_world. read_app. apply sent_by_app. reflexivity.
Qed.

Lemma edit_then_submit_resends_the_task_witness :
  exists w',
    run [User (Edit sample_task); User TaskSubmit] (mount ∅) = Some w'
    /\ sent_by (mount ∅) w'
       = [Api.interceptor (localStorage (mount ∅))
            (Api.put ("/tasks/" +:+ Task._id sample_task)
               (Api.TaskFields (Task.title sample_task)
                  (Task.description sample_task)
                  (Task.status sample_task)))].
Proof.
  eexists. split; [vm_compute; reflexivity |].
  eapply (edit_then_submit_resends_the_task sample_task (mount ∅)).
  vm_compute; reflexivity.
Defined.

(** X15: when a task submit succeeds, the form is emptied and leaves edit
    mode, the toast says which of the two it was by the render the submit
    started from, and one list request follows, with the filters of that
    same render. *)
Theorem submit_success_resets_the_form i c d w w' :
  pending w !! i = Some (HandleSubmitK c) ->
  step (Settle i (Fulfilled d)) w = Some w' ->
  AppState.title (app w') = ""
  /\ AppState.description (app w') = ""
  /\ AppState.editingTask (app w') = None
  /\ Toast.msg (AppState.toast (app w'))
     = match AppState.editingTask c with
       | Some _ => "Task updated"
       | None => "Task added"
       end
  /\ sent_by w w'
     = [Api.interceptor (localStorage w) (Api.get "/tasks" (App.params c))].
Proof.
  intros Hk. cbn [step]. rewrite Hk.
  cbn [resume fmap option_fmap option_map].
  unfold App.handleSubmit_settled. intros [= <-]. rewrite app_commit.
  read_world. read_app. repeat split; try reflexivity.
  apply sent_by_app. rewrite sent_commit. read_world. read_app.
  rewrite deps_changed_false by reflexivity. cbn [andb].
  apply app_nil_r.
Qed.

Lemma submit_success_resets_the_form_witness :
  exists w w',
    run (signed_in ++ [User (TitleChange "x"); User TaskSubmit])
      (mount {["token" := "tok"]}) = Some w
    /\ step (Settle 0 (Fulfilled Other)) w = Some w'
    /\ AppState.title (app w') = "".
Proof.
  eexists. eexists. split; [vm_compute; reflexivity |].
  match goal with |- step _ ?w = _ /\ _ => set (w0 := w) end.
  split; [vm_compute; reflexivity |].
  eapply (submit_success_resets_the_form 0 _ Other w0);
    vm_compute; reflexivity.
Defined.

(** X16: logging out removes the token, shows the auth screen, empties the
    task list and sends nothing; the requests in flight stay in flight, and
    a request issued afterwards carries no [Authorization] header. *)
Theorem logout_ends_the_session (w w' : World) :
  step (User Logout) w = Some w' ->
  localStorage w' !! "token" = None
  /\ View.screen_of (app w') = View.AuthScreen
  /\ AppState.tasks (app w') = []
  /\ sent w' = sent w
  /\ pending w' = pending w
  /\ forall cfg,
       Api.headers cfg !! "Authorization" = None ->
       Api.headers (Api.interceptor (localStorage w') cfg)
         !! "Authorization" = None.
Proof.
  cbn [step handle]. intros [= <-]. unfold App.logout.
  rewrite localStorage_commit, app_commit, sent_commit, pending_commit.
  read_world. read_app. rewrite andb_false_r, !app_nil_r.
  repeat split; try apply lookup_delete_eq.
  intros cfg Hcfg. rewrite interceptor_header by exact Hcfg.
  rewrite lookup_delete_eq. reflexivity.
Qed.

Lemma logout_ends_the_session_witness :
  exists w w',
    run signed_in (mount {["token" := "tok"]}) = Some w
    /\ step (User Logout) w = Some w'
    /\ localStorage w' !! "token" = None.
Proof.
  eexists. eexists. split; [vm_compute; reflexivity |].
  match goal with |- step _ ?w = _ /\ _ => set (w0 := w) end.
  split; [vm_compute; reflexivity |].
  eapply (logout_ends_the_session w0). vm_compute; reflexivity.
Defined.

(** X17: a failed list request never touches the tasks on display; unless
    its status is 401 it changes nothing but the console. *)
Theorem failed_load_keeps_the_list i err w w' :
  pending w !! i = Some LoadTasksK ->
  step (Settle i (Rejected err)) w = Some w' ->
  AppState.tasks (app w') = AppState.tasks (app w)
  /\ (status_is err 401 = false ->
      app w' = app w /\ localStorage w' = localStorage w
      /\ sent w' = sent w /\ authForm w' = authForm w).
Proof.
  intros Hk. cbn [step]. rewrite Hk.
  cbn [resume fmap option_fmap option_map].
  unfold App.loadTasks_settled. intros [= <-].
  rewrite app_commit, localStorage_commit.
  destruct (status_is err 401); read_world; read_app.
  - split; [reflexivity | discriminate].
  - split; [reflexivity |]. intros _.
    rewrite commit_same_app by reflexivity. auto.
Qed.

Lemma failed_load_keeps_the_list_witness :
  exists w',
    step (Settle 0 (Rejected server_error)) (mount {["token" := "tok"]})
    = Some w'
    /\ AppState.tasks (app w') = AppState.tasks (app (mount {["token" := "tok"]})).
Proof.
  eexists. split; [vm_compute; reflexivity |].
  eapply (failed_load_keeps_the_list 0 server_error
            (mount {["token" := "tok"]}));
    vm_compute; reflexivity.
Defined.

(** ** What the user sees *)

(** X18: for a task whose status is pending or done, toggling changes the
    label of its status button; a task with any other status is labelled
    Pending, and toggling it sends status pending, so the label stays. *)
Theorem toggle_changes_the_label (task : Task.t) :
  (Task.status task = "pending" \/ Task.status task = "done" ->
   View.statusLabel (App.toggled task) <> View.statusLabel task)
  /\ (Task.status task <> "pending" -> Task.status task <> "done" ->
      View.statusLabel task = "Pending"
      /\ View.statusLabel (App.toggled task) = "Pending").
Proof.
  unfold View.statusLabel. rewrite toggled_status. split.
  - intros [-> | ->]; vm_compute; discriminate.
  - intros Hp Hd.
    destruct (String.eqb_spec (Task.status task) "done"); [congruence |].
    destruct (String.eqb_spec (Task.status task) "pending"); [congruence |].
    split; reflexivity.
Qed.

Lemma form_turn a w : form_action a -> step (User a) w = Some (handle a w).
Proof.
  intros Ha. cbn [step]. f_equal. apply commit_same_app.
  destruct a; try contradiction; cbn [handle];
    unfold AuthForm.handleEmailChange, AuthForm.handlePasswordChange,
      AuthForm.switchMode, AuthForm.submit;
    branches; reflexivity.
Qed.

Section TypingAndSubmitting.

Import AuthFormState.

(** X19: after the user typed the e-mail and then the password, submitting
    shows the very errors that typing showed, and a request leaves exactly
    when neither field is flagged invalid. *)
Theorem submit_agrees_with_live_validation
  (e p : string) (w w1 w2 : World) :
  run [User (EmailChange e); User (PasswordChange p)] w = Some w1 ->
  step (User AuthSubmit) w1 = Some w2 ->
  fieldErrors (authForm w1) !! "email" = Some (AuthForm.validateEmail e)
  /\ fieldErrors (authForm w1) !! "password"
     = Some (AuthForm.validatePassword (isLogin (authForm w)) p)
  /\ fieldErrors (authForm w2) !! "email"
     = fieldErrors (authForm w1) !! "email"
  /\ fieldErrors (authForm w2) !! "password"
     = fieldErrors (authForm w1) !! "password"
  /\ (sent w2 <> sent w1 <->
      View.isInvalid (fieldErrors (authForm w1)) "email" = false
      /\ View.isInvalid (fieldErrors (authForm w1)) "password" = false).
Proof.
  intros Hrun Hstep.
  cbn [run] in Hrun. rewrite !form_turn in Hrun by exact I.
  injection Hrun as <-.
  rewrite form_turn in Hstep by exact I. injection Hstep as <-.
  cbn [handle]. unfold AuthForm.handleEmailChange,
    AuthForm.handlePasswordChange, AuthForm.submit, View.isInvalid.
  read_world.
  cbn [fieldErrors setFieldErrors setEmail setPassword isLogin email
       password].
  set (emailErr := AuthForm.validateEmail e).
  set (passwordErr := AuthForm.validatePassword (isLogin (authForm w)) p).
  rewrite lookup_insert_eq, lookup_insert_ne, lookup_insert_eq
    by discriminate.
  destruct (JS.truthy emailErr) eqn:He, (JS.truthy passwordErr) eqn:Hp;
    cbn [orb]; read_world;
    cbn [fieldErrors setFieldErrors setLoading];
    rewrite lookup_insert_eq, lookup_insert_ne, lookup_insert_eq
      by discriminate;
    repeat split; try reflexivity; try congruence;
    try (intros [? ?]; discriminate).
  intros _ Heq. apply (f_equal (@List.length _)) in Heq.
  rewrite length_app in Heq. cbn in Heq. lia.
Qed.

Lemma submit_agrees_with_live_validation_witness :
  exists w1 w2,
    run [User (EmailChange "a@b.c"); User (PasswordChange "secret")]
      (mount ∅) = Some w1
    /\ step (User AuthSubmit) w1 = Some w2
    /\ fieldErrors (authForm w2) !! "email"
       = fieldErrors (authForm w1) !! "email".
Proof.
  eexists. eexists. split; [vm_compute; reflexivity |].
  match goal with |- step _ ?w = _ /\ _ => set (w0 := w) end.
  split; [vm_compute; reflexivity |].
  match goal with |- fieldErrors (authForm ?w) !! _ = _ => set (w3 := w) end.
  assert (Hrun : run [User (EmailChange "a@b.c");
                      User (PasswordChange "secret")] (mount ∅) = Some w0)
    by (vm_compute; reflexivity).
  assert (Hstep : step (User AuthSubmit) w0 = Some w3)
    by (vm_compute; reflexivity).
  exact (proj1 (proj2 (proj2 (submit_agrees_with_live_validation
                                "a@b.c" "secret" (mount ∅) w0 w3
                                Hrun Hstep)))).
Defined.

End TypingAndSubmitting.

(** X20: typing in the title removes the invalid mark of the title and
    touches the error of no other field. *)
Theorem typing_a_title_clears_its_error (v : string) (w w' : World) :
  step (User (TitleChange v)) w = Some w' ->
  AppState.title (app w') = v
  /\ JS.truthy_at (AppState.fieldErrors (app w')) "title" = false
  /\ forall key, key <> "title" ->
       AppState.fieldErrors (app w') !! key
       = AppState.fieldErrors (app w) !! key.
Proof.
  cbn [step handle]. intros [= <-]. rewrite app_commit.
  unfold App.titleChange.
  destruct (JS.truthy_at (AppState.fieldErrors (app w)) "title") eqn:Ht;
    read_world; read_app.
  - split; [reflexivity |]. split.
    + unfold JS.truthy_at. rewrite lookup_insert_eq. reflexivity.
    + intros key Hkey. apply lookup_insert_ne. congruence.
  - auto.
Qed.

Lemma typing_a_title_clears_its_error_witness :
  exists w w' w'',
    run (signed_in ++ [User TaskSubmit]) (mount {["token" := "tok"]})
      = Some w
    /\ step (Settle 0 (Rejected title_too_short)) w = Some w'
    /\ step (User (TitleChange "longer")) w' = Some w''
    /\ JS.truthy_at (AppState.fieldErrors (app w')) "title" = true
    /\ JS.truthy_at (AppState.fieldErrors (app w'')) "title" = false.
Proof.
  eexists. eexists. eexists. split; [vm_compute; reflexivity |].
  split; [vm_compute; reflexivity |].
  match goal with |- step _ ?w = _ /\ _ => set (w0 := w) end.
  split; [vm_compute; reflexivity |].
  split; [vm_compute; reflexivity |].
  eapply (typing_a_title_clears_its_error "longer" w0).
  vm_compute; reflexivity.
Defined.
